(** * Async dashboard: worker lifecycle, counter, handoff queue

    A shallow embedding of [app.py]: the background producer
    [generate_data], the session state built by
    [initialize_session_state], and the handlers of the Start, Pause and
    Clear buttons and the queue drain of [main].

    The worker runs in a process of its own, so it is modelled as a
    small-step machine whose program points are the lines of
    [generate_data]; the controller's handlers are written in a small
    state-and-exception monad. *)

From Stdlib Require Import ZArith NArith Lia Ascii String.
From stdpp Require Import base list.

Local Open Scope nat_scope.

(** ** Decimal text with a fixed width, as [%04d] and friends print it *)

Module Text.

Definition digit_char (n : N) : ascii := ascii_of_N (48 + n).

Definition char_digit (c : ascii) : option N :=
  let n := N_of_ascii c in
  if ((48 <=? n) && (n <=? 57))%N then Some (n - 48)%N else None.

Fixpoint pow10 (w : nat) : N :=
  match w with
  | O => 1%N
  | S w' => (10 * pow10 w')%N
  end.

(** [zfill w n] prints the [w] low decimal digits of [n], most significant first. *)
Fixpoint zfill (w : nat) (n : N) : string :=
  match w with
  | O => EmptyString
  | S w' => String (digit_char ((n / pow10 w') mod 10)%N) (zfill w' n)
  end.

(** [read_digits w s acc] reads exactly [w] decimal digits off the front of [s]. *)
Fixpoint read_digits (w : nat) (s : string) (acc : N) : option (N * string) :=
  match w with
  | O => Some (acc, s)
  | S w' =>
      match s with
      | String c s' =>
          match char_digit c with
          | Some d => read_digits w' s' (10 * acc + d)%N
          | None => None
          end
      | EmptyString => None
      end
  end.

(** [expect c s] consumes the character [c] at the front of [s]. *)
Definition expect (c : ascii) (s : string) : option string :=
  match s with
  | String c' s' => if Ascii.eqb c c' then Some s' else None
  | EmptyString => None
  end.

(** The decimal digits at the front of [s], read into [acc]. *)
Fixpoint read_number_acc (s : string) (acc : N) : N * string :=
  match s with
  | String c s' =>
      match char_digit c with
      | Some d => read_number_acc s' (10 * acc + d)%N
      | None => (acc, s)
      end
  | EmptyString => (acc, s)
  end.

(** A number of at least one digit at the front of [s]. *)
Definition read_number (s : string) : option (N * string) :=
  match s with
  | String c _ =>
      match char_digit c with
      | Some _ => Some (read_number_acc s 0%N)
      | None => None
      end
  | EmptyString => None
  end.

(** The least width, from [w] on, in which [n] fits. *)
Fixpoint width_from (fuel w : nat) (n : N) : nat :=
  match fuel with
  | O => w
  | S fuel' => if (n <? pow10 w)%N then w else width_from fuel' (S w) n
  end.

(** [str(n)] for a natural number: its digits, no leading zero. *)
Definition dec_of_N (n : N) : string :=
  zfill (width_from (N.to_nat (N.size n)) 1 n) n.

(** [str(z)] for an [int]. *)
Definition dec_of_Z (z : Z) : string :=
  if (z <? 0)%Z then String "-" (dec_of_N (Z.abs_N z)) else dec_of_N (Z.to_N z).

(** [int(...)] off the front of [s]: an optional minus sign and digits. *)
Definition read_int (s : string) : option (Z * string) :=
  match s with
  | String c s' =>
      if Ascii.eqb c "-" then
        '(n, rest) ← read_number s'; Some (- Z.of_N n, rest)%Z
      else '(n, rest) ← read_number s; Some (Z.of_N n, rest)
  | EmptyString => None
  end.

(** A text that does not go on with a digit. *)
Definition no_digit_ahead (s : string) : Prop :=
  match s with
  | String c _ => char_digit c = None
  | EmptyString => True
  end.

End Text.

(** ** [datetime]: the naive wall-clock instants of [datetime.now()] *)

Module Datetime.
Import Text.

Record datetime : Type := mkDatetime {
  year : N; month : N; day : N;
  hour : N; minute : N; second : N; microsecond : N }.

Definition is_leap (y : N) : bool :=
  ((y mod 4 =? 0) && (negb (y mod 100 =? 0) || (y mod 400 =? 0)))%N.

Definition days_in_month (y m : N) : N :=
  if (m =? 2)%N then (if is_leap y then 29 else 28)%N
  else if ((m =? 4) || (m =? 6) || (m =? 9) || (m =? 11))%N then 30%N
  else 31%N.

(** The range checks of the [datetime] constructor. *)
Definition valid (d : datetime) : bool :=
  ((1 <=? year d) && (year d <=? 9999) &&
   (1 <=? month d) && (month d <=? 12) &&
   (1 <=? day d) && (day d <=? days_in_month (year d) (month d)) &&
   (hour d <? 24) && (minute d <? 60) && (second d <? 60) &&
   (microsecond d <? 1000000))%N.

(** [datetime.isoformat()]: [YYYY-MM-DDTHH:MM:SS.ffffff], the fraction
    being left out when [microsecond] is 0. *)
Definition isoformat (d : datetime) : string :=
  String.append (zfill 4 (year d)) (String "-"
  (String.append (zfill 2 (month d)) (String "-"
  (String.append (zfill 2 (day d)) (String "T"
  (String.append (zfill 2 (hour d)) (String ":"
  (String.append (zfill 2 (minute d)) (String ":"
  (String.append (zfill 2 (second d))
     (if (microsecond d =? 0)%N then EmptyString
      else String "." (String.append (zfill 6 (microsecond d)) EmptyString)
     ))))))))))).

(** An instant in one of the two shapes [isoformat] prints, off the front
    of [s]; the range checks are the constructor's. *)
Definition read_isoformat (s : string) : option (datetime * string) :=
  '(y, s) ← read_digits 4 s 0;
  s ← expect "-" s;
  '(mo, s) ← read_digits 2 s 0;
  s ← expect "-" s;
  '(dd, s) ← read_digits 2 s 0;
  s ← expect "T" s;
  '(h, s) ← read_digits 2 s 0;
  s ← expect ":" s;
  '(mi, s) ← read_digits 2 s 0;
  s ← expect ":" s;
  '(ss, s) ← read_digits 2 s 0;
  '(us, s) ← match s with
             | EmptyString => Some (0%N, s)
             | String c s' =>
                 if Ascii.eqb c "." then read_digits 6 s' 0 else Some (0%N, s)
             end;
  let d := mkDatetime y mo dd h mi ss us in
  if valid d then Some (d, s) else None.

(** [datetime.fromisoformat] on the two shapes [isoformat] prints, which
    are the only texts the worker writes; on any other text this gives
    [None], the [ValueError], although Python reads some further ISO shapes
    (a date alone, another separator). *)
Definition fromisoformat (s : string) : option datetime :=
  '(d, rest) ← read_isoformat s;
  match rest with
  | EmptyString => Some d
  | String _ _ => None
  end.

(** A text that does not go on with the dot of a fraction. *)
Definition no_dot_ahead (s : string) : Prop :=
  match s with
  | String c _ => c <> "."%char
  | EmptyString => True
  end.

End Datetime.


(** ** The session state and the worker process *)

Module App.
Import Datetime.

(** The value a sample holds under ['timestamp']: the worker stores the
    text of [isoformat()], the drain replaces it by the parsed [datetime]. *)
Inductive ts_value : Type :=
| TsStr (s : string)
| TsDatetime (d : datetime).

(** The dict [{'timestamp': ..., 'step': ..., 'pid': ...}]. *)
Record Sample : Type := mkSample {
  timestamp : ts_value;
  step : Z;
  pid : Z }.

Definition with_timestamp (v : ts_value) (d : Sample) : Sample :=
  mkSample v (step d) (pid d).

(** [mp.Value('i', 0)] is a C [int]: storing into it keeps the low 32 bits,
    read back as a signed number. *)
Definition wrap32 (z : Z) : Z := ((z + 2 ^ 31) mod 2 ^ 32 - 2 ^ 31)%Z.

(** Program points of [generate_data], with the locals live at each. *)
Inductive wpc : Type :=
| AtStop                 (* line 14: while not stop_event.is_set() *)
| AtPause                (* line 15: if not pause_event.is_set() *)
| AtIncr                 (* lines 17-19: locked increment, step = counter.value *)
| AtBuild (st : Z)       (* lines 21-25: data = {...} *)
| AtPut (data : Sample)  (* line 26: queue.put(data) *)
| AtSleepWork            (* line 27: sleep(2) *)
| AtSleepPause.          (* line 29: sleep(0.1) *)

(** An [mp.Process] object: constructed, started (with its OS pid), or finished. *)
Inductive proc : Type :=
| Unstarted
| Alive (ospid : Z) (at_pc : wpc)
| Exited (ospid : Z).

(** [st.session_state], together with the processes it has created. *)
Record state : Type := mkState {
  data_queue : list Sample;
  stop_event : bool;
  pause_event : bool;
  counter : Z;
  local_data : list Sample;
  process : option nat;
  running : bool;
  procs : list proc }.

Definition with_queue (q : list Sample) (s : state) : state :=
  mkState q (stop_event s) (pause_event s) (counter s) (local_data s)
          (process s) (running s) (procs s).
Definition with_stop (b : bool) (s : state) : state :=
  mkState (data_queue s) b (pause_event s) (counter s) (local_data s)
          (process s) (running s) (procs s).
Definition with_pause (b : bool) (s : state) : state :=
  mkState (data_queue s) (stop_event s) b (counter s) (local_data s)
          (process s) (running s) (procs s).
Definition with_counter (c : Z) (s : state) : state :=
  mkState (data_queue s) (stop_event s) (pause_event s) c (local_data s)
          (process s) (running s) (procs s).
Definition with_local (l : list Sample) (s : state) : state :=
  mkState (data_queue s) (stop_event s) (pause_event s) (counter s) l
          (process s) (running s) (procs s).
Definition with_process (p : option nat) (s : state) : state :=
  mkState (data_queue s) (stop_event s) (pause_event s) (counter s)
          (local_data s) p (running s) (procs s).
Definition with_running (b : bool) (s : state) : state :=
  mkState (data_queue s) (stop_event s) (pause_event s) (counter s)
          (local_data s) (process s) b (procs s).
Definition with_procs (ps : list proc) (s : state) : state :=
  mkState (data_queue s) (stop_event s) (pause_event s) (counter s)
          (local_data s) (process s) (running s) ps.

Definition set_proc (i : nat) (p : proc) (s : state) : state :=
  with_procs (<[i := p]> (procs s)) s.

(** [initialize_session_state] *)
Definition init : state :=
  mkState [] false false 0%Z [] None false [].

(** [Process.is_alive()] *)
Definition proc_alive (p : proc) : bool :=
  match p with Alive _ _ => true | _ => false end.

Definition is_alive (i : nat) (s : state) : bool :=
  match procs s !! i with
  | Some p => proc_alive p
  | None => false
  end.

(** [process and process.is_alive()] on the handle of the session *)
Definition handle_alive (s : state) : bool :=
  match process s with
  | Some i => is_alive i s
  | None => false
  end.

Definition live_count (s : state) : nat :=
  length (filter (fun p => proc_alive p = true) (procs s)).

(** What one step of the worker does that others can see. *)
Inductive event : Type :=
| EvCheck                 (* a flag was read *)
| EvIncr (v : Z)          (* the counter was incremented to [v] *)
| EvCreate (d : Sample)   (* the dict was built *)
| EvPut (d : Sample)      (* the dict was put on the queue *)
| EvSleep (ms : Z)        (* a sleep of [ms] milliseconds *)
| EvExit                  (* the loop ended and the process finished *)
| EvIdle.                 (* not a running process: nothing happens *)

(** What [generate_data] works on: its own process (with the program
    point and locals) and the two shared objects it writes, [queue] and
    [counter].  The two events are only read. *)
Record wstate : Type := mkW {
  w_proc : proc;
  w_queue : list Sample;
  w_counter : Z }.

(** One step of [generate_data(queue, stop_event, pause_event, counter)];
    [now] is what [datetime.now()] returns at that moment.  A process that is
    not running does nothing. *)
Definition wstep (now : datetime) (stop pause : bool) (w : wstate)
  : event * wstate :=
  match w_proc w with
  | Alive me pc =>
      match pc with
      | AtStop =>
          if stop then (EvExit, mkW (Exited me) (w_queue w) (w_counter w))
          else (EvCheck, mkW (Alive me AtPause) (w_queue w) (w_counter w))
      | AtPause =>
          if pause
          then (EvCheck, mkW (Alive me AtSleepPause) (w_queue w) (w_counter w))
          else (EvCheck, mkW (Alive me AtIncr) (w_queue w) (w_counter w))
      | AtIncr =>
          let v := wrap32 (w_counter w + 1) in
          (EvIncr v, mkW (Alive me (AtBuild v)) (w_queue w) v)
      | AtBuild st =>
          let data := mkSample (TsStr (isoformat now)) st me in
          (EvCreate data, mkW (Alive me (AtPut data)) (w_queue w) (w_counter w))
      | AtPut data =>
          (EvPut data,
           mkW (Alive me AtSleepWork) (w_queue w ++ [data]) (w_counter w))
      | AtSleepWork =>
          (EvSleep 2000, mkW (Alive me AtStop) (w_queue w) (w_counter w))
      | AtSleepPause =>
          (EvSleep 100, mkW (Alive me AtStop) (w_queue w) (w_counter w))
      end
  | _ => (EvIdle, w)
  end.

(** The worker's view of process [i] put back into the session. *)
Definition install (i : nat) (w : wstate) (s : state) : state :=
  set_proc i (w_proc w) (with_counter (w_counter w) (with_queue (w_queue w) s)).

(** One step of process [i] of the session. *)
Definition work (now : datetime) (i : nat) (s : state) : event * state :=
  match procs s !! i with
  | Some p =>
      let '(e, w) :=
        wstep now (stop_event s) (pause_event s)
              (mkW p (data_queue s) (counter s)) in
      (e, install i w s)
  | None => (EvIdle, s)
  end.

(** [n] steps of the worker on its own view. *)
Fixpoint wrun (n : nat) (now : datetime) (stop pause : bool) (w : wstate)
  : list event * wstate :=
  match n with
  | O => ([], w)
  | S n' =>
      let '(e, w1) := wstep now stop pause w in
      let '(es, w2) := wrun n' now stop pause w1 in
      (e :: es, w2)
  end.

(** [n] steps of process [i], with the events in order. *)
Fixpoint work_n (n : nat) (now : datetime) (i : nat) (s : state)
  : list event * state :=
  match n with
  | O => ([], s)
  | S n' =>
      let '(e, s1) := work now i s in
      let '(es, s2) := work_n n' now i s1 in
      (e :: es, s2)
  end.

(** ** The controller: a state monad with exceptions *)

Inductive exn : Type := Empty | ValueError | TypeError | AttributeError | OSError.

(** [Timeout] is the model's own: the fuel of a loop ran out. *)
Inductive res (A : Type) : Type :=
| Ok (a : A)
| Raise (e : exn)
| Timeout.
Arguments Ok {A} a.
Arguments Raise {A} e.
Arguments Timeout {A}.

Definition M (A : Type) : Type := state -> res A * state.

#[export] Instance M_ret : MRet M := fun A a s => (Ok a, s).

#[export] Instance M_bind : MBind M := fun A B f m s =>
  match m s with
  | (Ok a, s') => f a s'
  | (Raise e, s') => (Raise e, s')
  | (Timeout, s') => (Timeout, s')
  end.

Definition get : M state := fun s => (Ok s, s).
Definition modify (f : state -> state) : M unit := fun s => (Ok tt, f s).
Definition raise {A : Type} (e : exn) : M A := fun s => (Raise e, s).

(** [try: m except: pass] *)
Definition try_pass (m : M unit) : M unit := fun s =>
  match m s with
  | (Raise _, s') => (Ok tt, s')
  | r => r
  end.

(** [while cond: body], with fuel. *)
Fixpoint while (fuel : nat) (cond : state -> bool) (body : M unit) : M unit :=
  fun s =>
    if cond s then
      match fuel with
      | O => (Timeout, s)
      | S fuel' => (body ≫= fun _ => while fuel' cond body) s
      end
    else (Ok tt, s).

Definition queue_empty (s : state) : bool :=
  match data_queue s with [] => true | _ => false end.

(** [Queue.get_nowait()] *)
Definition get_nowait : M Sample := fun s =>
  match data_queue s with
  | [] => (Raise Empty, s)
  | d :: q => (Ok d, with_queue q s)
  end.

(** [datetime.fromisoformat(v)] on a value of a dict *)
Definition parse_timestamp (v : ts_value) : M datetime :=
  match v with
  | TsStr txt =>
      match fromisoformat txt with
      | Some d => mret d
      | None => raise ValueError
      end
  | TsDatetime _ => raise TypeError
  end.

(** [Process.start()]: the operating system either gives the new process
    a pid or refuses. *)
Definition process_start (spawn : option Z) : M unit := fun s =>
  match process s, spawn with
  | Some i, Some p => (Ok tt, set_proc i (Alive p AtStop) s)
  | Some _, None => (Raise OSError, s)
  | None, _ => (Raise AttributeError, s)
  end.

(** [Process.join()]: the caller waits while the worker runs on.  The
    queue is taken as the unbounded channel it is meant to be: a put never
    holds the worker back.  A pipe filled by samples not yet read, which
    would keep a real worker from finishing, is not modelled. *)
Definition join (fuel : nat) (now : datetime) : M unit := fun s =>
  match process s with
  | Some i =>
      while fuel (is_alive i) (modify (fun s => snd (work now i s))) s
  | None => (Raise AttributeError, s)
  end.

(** Lines 59-75, the body of the Start button. *)
Definition start (spawn : option Z) : M unit :=
  s ← get;
  if negb (handle_alive s) then
    modify (with_stop false);;
    modify (with_pause false);;
    modify (fun s => with_process (Some (length (procs s)))
                       (with_procs (procs s ++ [Unstarted]) s));;
    process_start spawn;;
    modify (with_running true)
  else mret tt.

(** Lines 79-82, the body of the Pause button. *)
Definition pause_toggle : M unit :=
  s ← get;
  if pause_event s then modify (with_pause false)
  else modify (with_pause true).

(** Lines 101-105. *)
Definition discard_queue (fuel : nat) : M unit :=
  while fuel (fun s => negb (queue_empty s))
        (try_pass (get_nowait ≫= fun _ => mret tt)).

(** Lines 87-105, the body of the Clear button. *)
Definition clear (fuel : nat) (now : datetime) : M unit :=
  s ← get;
  (if handle_alive s then modify (with_stop true);; join fuel now
   else mret tt);;
  modify (with_local []);;
  modify (with_counter 0%Z);;
  modify (with_process None);;
  modify (with_running false);;
  discard_queue fuel.

(** Lines 120-126, one turn of the drain loop. *)
Definition drain_body : M unit :=
  try_pass (
    new_data ← get_nowait;
    ts ← parse_timestamp (timestamp new_data);
    modify (fun s =>
      with_local (local_data s ++ [with_timestamp (TsDatetime ts) new_data]) s)).

(** Lines 118-126. *)
Definition drain (fuel : nat) : M unit :=
  s ← get;
  if running s then while fuel (fun s => negb (queue_empty s)) drain_body
  else mret tt.

Inductive button : Type := Start | Pause | Clear.

Definition button_eqb (a b : button) : bool :=
  match a, b with
  | Start, Start | Pause, Pause | Clear, Clear => true
  | _, _ => false
  end.

(** [st.button(b, disabled=...)]: true when [b] was clicked, which a
    disabled button cannot be. *)
Definition st_button (b : button) (disabled : bool) (click : option button) : bool :=
  match click with
  | Some b' => button_eqb b b' && negb disabled
  | None => false
  end.

Definition start_disabled (s : state) : bool := running s.
Definition pause_disabled (s : state) : bool := negb (running s).
Definition clear_disabled (s : state) : bool :=
  negb ((0 <? length (local_data s)) || running s).

(** One run of the script [main] on the click that triggered it. *)
Definition main (fuel : nat) (now : datetime) (spawn : option Z)
  (click : option button) : M unit :=
  s ← get;
  (if st_button Start (start_disabled s) click then start spawn else mret tt);;
  s ← get;
  (if st_button Pause (pause_disabled s) click then pause_toggle else mret tt);;
  s ← get;
  (if st_button Clear (clear_disabled s) click then clear fuel now else mret tt);;
  drain fuel.

(** ** The system: controller operations interleaved with worker steps *)

Inductive label : Type :=
| LStart (spawn : option Z)
| LPause
| LClear (now : datetime)
| LDrainTurn
| LWork (i : nat) (now : datetime).

(** The controller's operations are taken without the [disabled] guards of
    their buttons, so every order of calls is covered; the drain is taken
    one loop turn at a time, so worker steps may fall between two turns. *)
Inductive sys_step : state -> label -> state -> Prop :=
| step_start spawn s r s' :
    start spawn s = (r, s') -> sys_step s (LStart spawn) s'
| step_pause s s' :
    pause_toggle s = (Ok tt, s') -> sys_step s LPause s'
| step_clear fuel now s s' :
    valid now = true ->
    clear fuel now s = (Ok tt, s') -> sys_step s (LClear now) s'
| step_drain s s' :
    running s = true -> queue_empty s = false ->
    drain_body s = (Ok tt, s') -> sys_step s LDrainTurn s'
| step_work i now s :
    valid now = true -> sys_step s (LWork i now) (snd (work now i s)).

(** The samples built since the last clear, in the order they were built. *)
Definition log_after (h : list Sample) (s : state) (l : label) : list Sample :=
  match l with
  | LClear _ => []
  | LWork i now =>
      match fst (work now i s) with
      | EvCreate d => h ++ [d]
      | _ => h
      end
  | _ => h
  end.

Inductive traced : list Sample -> state -> Prop :=
| traced_init : traced [] init
| traced_step h s l s' :
    traced h s -> sys_step s l s' -> traced (log_after h s l) s'.

Definition reachable (s : state) : Prop := exists h, traced h s.

(** A computation of the controller that, unless its fuel runs out, leaves
    the session in a state it can reach by steps of the system. *)
Definition preserves {A : Type} (m : M A) : Prop :=
  forall s r s', reachable s -> m s = (r, s') -> r <> Timeout -> reachable s'.

(** The sample a process is about to put on the queue, if any. *)
Definition pc_pending (p : proc) : list Sample :=
  match p with
  | Alive _ (AtPut d) => [d]
  | _ => []
  end.

Definition pending (s : state) : list Sample :=
  match process s with
  | Some i =>
      match procs s !! i with
      | Some p => pc_pending p
      | None => []
      end
  | None => []
  end.

(** A counter value the worker has taken for a sample it has not built yet. *)
Definition pc_reserved (p : proc) : list Z :=
  match p with
  | Alive _ (AtBuild st) => [st]
  | _ => []
  end.

Definition reserved (s : state) : list Z :=
  match process s with
  | Some i =>
      match procs s !! i with
      | Some p => pc_reserved p
      | None => []
      end
  | None => []
  end.

(** How a sample looked when the worker built it: the timestamp as text. *)
Definition to_wire (d : Sample) : Sample :=
  match timestamp d with
  | TsDatetime t => with_timestamp (TsStr (isoformat t)) d
  | TsStr _ => d
  end.

(** The instant a sample's timestamp stands for: the text is the form
    in which the instant crosses from the worker to the controller. *)
Definition instant (d : Sample) : option datetime :=
  match timestamp d with
  | TsDatetime t => Some t
  | TsStr txt => fromisoformat txt
  end.

(** The three fields of a sample: timestamp (an instant), step, producer id. *)
Definition fields (d : Sample) : option datetime * Z * Z :=
  (instant d, step d, pid d).

Definition stamped (d : Sample) : Prop :=
  exists t, valid t = true /\ instant d = Some t.

(** The samples the session holds: in the buffer, on the queue, and in the
    worker's hand before its put; oldest first. *)
Definition held (s : state) : list Sample :=
  local_data s ++ data_queue s ++ pending s.

(** The step numbers [1, 2, ..., n] as a C [int] holds them. *)
Definition steps_upto (n : nat) : list Z :=
  map (fun k => wrap32 (Z.of_nat k)) (seq 1 n).

(** ** Observations on the worker's events *)

Definition is_put (e : event) : bool :=
  match e with EvPut _ => true | _ => false end.
Definition is_incr (e : event) : bool :=
  match e with EvIncr _ => true | _ => false end.
Definition is_sleep (e : event) : bool :=
  match e with EvSleep _ => true | _ => false end.

Fixpoint count_ev (f : event -> bool) (es : list event) : nat :=
  match es with
  | [] => 0
  | e :: es' => (if f e then 1 else 0) + count_ev f es'
  end.

(** Milliseconds slept in a run of events. *)
Fixpoint slept (es : list event) : Z :=
  match es with
  | [] => 0
  | EvSleep ms :: es' => ms + slept es'
  | _ :: es' => slept es'
  end.

(** Steps from a program point to the end of the process, once
    [stop_event] is set. *)
Definition stop_distance (pause : bool) (pc : wpc) : nat :=
  match pc with
  | AtStop => 1
  | AtSleepWork | AtSleepPause => 2
  | AtPut _ => 3
  | AtBuild _ => 4
  | AtIncr => 5
  | AtPause => if pause then 3 else 6
  end.

(** Increments and puts still to come from a program point whose pause
    check lies behind it. *)
Definition incrs_due (pc : wpc) : nat :=
  match pc with AtIncr => 1 | _ => 0 end.
Definition puts_due (pc : wpc) : nat :=
  match pc with AtIncr | AtBuild _ | AtPut _ => 1 | _ => 0 end.

(** The sample one turn of the drain appends for the popped [d]; [None]
    when parsing its timestamp raises and the sample is dropped. *)
Definition parsed (d : Sample) : option Sample :=
  match timestamp d with
  | TsStr txt =>
      match fromisoformat txt with
      | Some t => Some (with_timestamp (TsDatetime t) d)
      | None => None
      end
  | TsDatetime _ => None
  end.

(** The session once [clear] has returned. *)
Definition cleared (s : state) : state :=
  mkState [] (if handle_alive s then true else stop_event s) (pause_event s)
          0%Z [] None false
          (match process s with
           | Some i =>
               match procs s !! i with
               | Some (Alive me _) => <[i := Exited me]> (procs s)
               | _ => procs s
               end
           | None => procs s
           end).

(** What one turn of the drain appends to the buffer for the popped [d]. *)
Definition appended (d : Sample) : list Sample :=
  match parsed d with
  | Some d' => [d']
  | None => []
  end.

(** A sample as the worker builds it, and as the drain stores it. *)
Definition wire_ok (d : Sample) : Prop :=
  exists t, valid t = true /\ timestamp d = TsStr (isoformat t).
Definition buffered_ok (d : Sample) : Prop :=
  exists t, valid t = true /\ timestamp d = TsDatetime t.

(** ** The invariant of the session

    [h] is the log of the samples built since the last clear. *)
Record inv (h : list Sample) (s : state) : Prop := mkInv {
  inv_only_handle : forall j p,
    procs s !! j = Some p -> proc_alive p = true -> process s = Some j;
  inv_alive_running :
    handle_alive s = true -> running s = true /\ stop_event s = false;
  inv_running_alive : running s = true -> handle_alive s = true;
  inv_idle_empty : handle_alive s = false -> h = [];
  inv_counter :
    counter s = wrap32 (Z.of_nat (length h + length (reserved s)));
  inv_reserved : forall st, reserved s = [st] -> st = counter s;
  inv_steps : map step h = steps_upto (length h);
  inv_log : map to_wire (local_data s) ++ data_queue s ++ pending s = h;
  inv_wire : Forall wire_ok h;
  inv_buffer : Forall buffered_ok (local_data s);
  inv_pid : forall i me pc,
    process s = Some i -> procs s !! i = Some (Alive me pc) ->
    Forall (fun d => pid d = me) h }.

(** ** What holds while the controller waits in [join] *)

Definition proc_distance (pause : bool) (p : proc) : nat :=
  match p with
  | Alive _ pc => stop_distance pause pc
  | _ => 0
  end.

(** Whether a put can still come once [stop_event] is set. *)
Definition put_ahead (p : proc) : nat :=
  match p with
  | Alive _ (AtPause | AtIncr | AtBuild _ | AtPut _) => 1
  | _ => 0
  end.

Definition same_process (me : Z) (p : proc) : Prop :=
  p = Exited me \/ exists pc, p = Alive me pc.

(** [s1] is a state the session can be in while [clear], called in [s0]
    with [stop_event] just set, waits for process [i]. *)
Definition joining (i : nat) (me : Z) (s0 s1 : state) : Prop :=
  stop_event s1 = true /\ pause_event s1 = pause_event s0 /\
  local_data s1 = local_data s0 /\ process s1 = process s0 /\
  running s1 = running s0 /\
  exists p, same_process me p /\ procs s1 = <[i := p]> (procs s0) /\
            length (data_queue s1) + put_ahead p <= length (data_queue s0) + 1.

Definition join_distance (i : nat) (s : state) : nat :=
  match procs s !! i with
  | Some p => proc_distance (pause_event s) p
  | None => 0
  end.

(** ** States used as examples *)

Definition noon : datetime := mkDatetime 2024 5 1 12 0 0 0.
Definition noon_plus_2s : datetime := mkDatetime 2024 5 1 12 0 2 250000.

Definition sample_on_wire (t : datetime) (st me : Z) : Sample :=
  mkSample (TsStr (isoformat t)) st me.
Definition sample_in_buffer (t : datetime) (st me : Z) : Sample :=
  mkSample (TsDatetime t) st me.

(** The session right after a first successful start. *)
Definition started : state :=
  mkState [] false false 0%Z [] (Some 0) true [Alive 100 AtStop].

(** A worker that passed its pause check just before Pause was clicked. *)
Definition race_state : state :=
  mkState [] false true 0%Z [] (Some 0) true [Alive 100 AtIncr].

(** A session that is not running but holds a sample in the buffer, one on
    the queue, and a counter that is not 0. *)
Definition leftover : state :=
  mkState [sample_on_wire noon_plus_2s 5 100] false true 5%Z
          [sample_in_buffer noon 4 100] None false [].

(** A running session with one sample waiting on the queue. *)
Definition one_queued : state :=
  mkState [sample_on_wire noon 1 100] false false 1%Z [] (Some 0) true
          [Alive 100 AtSleepWork].

(** The session after one start and [n] emissions, each drained, the
    worker back at the head of its loop. *)
Definition after_emissions (n : nat) : state :=
  mkState [] false false (wrap32 (Z.of_nat n))
          (map (fun k => sample_in_buffer noon (wrap32 (Z.of_nat k)) 100)
               (seq 1 n))
          (Some 0) true [Alive 100 AtStop].

End App.

(** ** The exported CSV text *)

Module Csv.
Import Text Datetime App.

Definition newline : ascii := "010"%char.

(** Modelled from the spec: the text that [to_csv(index=False)] of pandas
    gives for the buffer, which is not code of this repository.  The spec
    describes it as a header row [timestamp,step,pid] followed by one row
    per sample, with an ISO-8601 timestamp string, the integer step and the
    producer identity. *)
Definition csv_header : string :=
  String.append "timestamp,step,pid" (String newline EmptyString).

Definition csv_timestamp (v : ts_value) : string :=
  match v with
  | TsDatetime t => isoformat t
  | TsStr txt => txt
  end.

Definition csv_row (d : Sample) : string :=
  String.append (csv_timestamp (timestamp d)) (String ","
  (String.append (dec_of_Z (step d)) (String ","
  (String.append (dec_of_Z (pid d)) (String newline EmptyString))))).

Fixpoint csv_rows (l : list Sample) : string :=
  match l with
  | [] => EmptyString
  | d :: l' => String.append (csv_row d) (csv_rows l')
  end.

(** Modelled from the spec: the whole text, header row first; the writer
    itself is pandas' [DataFrame.to_csv], absent from the repository. *)
Definition to_csv (l : list Sample) : string :=
  String.append csv_header (csv_rows l).

(** Lines 108-115: the download is offered only for a buffer that holds
    something. *)
Definition download_csv (s : state) : option string :=
  if 0 <? length (local_data s) then Some (to_csv (local_data s)) else None.

(** Modelled from the spec: a reader of that text; the repository has none. *)
Definition read_row (s : string) : option (Sample * string) :=
  '(t, s) ← read_isoformat s;
  s ← expect "," s;
  '(st, s) ← read_int s;
  s ← expect "," s;
  '(p, s) ← read_int s;
  s ← expect newline s;
  Some (mkSample (TsDatetime t) st p, s).

Fixpoint read_rows (fuel : nat) (s : string) : option (list Sample) :=
  match s with
  | EmptyString => Some []
  | String _ _ =>
      match fuel with
      | O => None
      | S fuel' =>
          '(d, rest) ← read_row s;
          l ← read_rows fuel' rest;
          Some (d :: l)
      end
  end.

Fixpoint strip_prefix (p s : string) : option string :=
  match p with
  | EmptyString => Some s
  | String c p' =>
      match s with
      | String c' s' => if Ascii.eqb c c' then strip_prefix p' s' else None
      | EmptyString => None
      end
  end.

(** Modelled from the spec: parsing the text back into samples; the
    repository has no reader of its own. *)
Definition parse_csv (text : string) : option (list Sample) :=
  rest ← strip_prefix csv_header text;
  read_rows (String.length rest) rest.

End Csv.

(** ** The script around the handlers *)

Module Script.
Import Datetime App.

(** [initialize_session_state]: [None] is a session in which
    ['initialized'] is not set yet; an initialized session is left alone. *)
Definition initialize_session_state (ss : option state) : state :=
  match ss with
  | None => init
  | Some s => s
  end.

(** Lines 134-140: what the status placeholder shows. *)
Inductive status_line : Type :=
| Info
| Status (label : string) (steps : nat).

Definition status (s : state) : status_line :=
  if running s
  then Status (if pause_event s then "PAUSED" else "RUNNING")
              (length (local_data s))
  else Info.

(** Lines 143-146: the milliseconds the script sleeps before it asks for a
    rerun; [None] when it does not ask for one. *)
Definition rerun_wait (s : state) : option Z :=
  if running s then Some (if pause_event s then 100 else 2000)%Z else None.

(** The [disabled] argument of each button. *)
Definition button_disabled (b : button) (s : state) : bool :=
  match b with
  | Start => start_disabled s
  | Pause => pause_disabled s
  | Clear => clear_disabled s
  end.

(** The body that runs when button [b] is clicked. *)
Definition handler (fuel : nat) (now : datetime) (spawn : option Z)
  (b : button) : M unit :=
  match b with
  | Start => start spawn
  | Pause => pause_toggle
  | Clear => clear fuel now
  end.

(** One run of the whole script: lines 49-50, then the rest of [main]. *)
Definition script (fuel : nat) (now : datetime) (spawn : option Z)
  (click : option button) (ss : option state) : res unit * state :=
  main fuel now spawn click (initialize_session_state ss).

(** What happens to a session: a run of the script, or a step of one of
    its worker processes. *)
Inductive happening : Type :=
| Run (now : datetime) (spawn : option Z) (click : option button)
| Step (i : nat) (now : datetime).

Definition clock_ok (h : happening) : bool :=
  match h with
  | Run now _ _ => valid now
  | Step _ now => valid now
  end.

(** The session after a list of happenings; the outer [None] says that the
    fuel of some script run ran out.  An exception ends a script run and
    leaves the session as it is then. *)
Fixpoint session_after (fuel : nat) (hs : list happening) (ss : option state)
  : option (option state) :=
  match hs with
  | [] => Some ss
  | Run now spawn click :: hs' =>
      match script fuel now spawn click ss with
      | (Timeout, _) => None
      | (_, s') => session_after fuel hs' (Some s')
      end
  | Step i now :: hs' =>
      match ss with
      | None => session_after fuel hs' None
      | Some s => session_after fuel hs' (Some (snd (work now i s)))
      end
  end.


End Script.
(** * Facts *)

Import Text Datetime App Csv Script.

(** ** Text *)

Lemma append_assoc (a b c : string) :
  String.append (String.append a b) c = String.append a (String.append b c).
Proof. induction a as [|x a IH]; cbn [String.append]; [reflexivity|now rewrite IH]. Qed.

Lemma append_nil_r (a : string) : String.append a EmptyString = a.
Proof. induction a as [|x a IH]; cbn [String.append]; [reflexivity|now rewrite IH]. Qed.

Lemma pow10_pos w : (0 < pow10 w)%N.
Proof. induction w; cbn [pow10]; lia. Qed.

Lemma pow10_ge_pow2 w : (2 ^ N.of_nat w <= pow10 w)%N.
Proof.
  induction w as [|w IH].
  - cbn. lia.
  - rewrite Nat2N.inj_succ, N.pow_succ_r'. cbn [pow10]. lia.
Qed.

Lemma char_digit_digit_char d : (d < 10)%N -> char_digit (digit_char d) = Some d.
Proof.
  intros H.
  assert (d = 0 \/ d = 1 \/ d = 2 \/ d = 3 \/ d = 4 \/ d = 5 \/ d = 6 \/
          d = 7 \/ d = 8 \/ d = 9)%N as Hd by lia.
  repeat (destruct Hd as [-> | Hd]; [reflexivity|]). now subst d.
Qed.

Lemma mod_pow10_succ n w :
  ((10 * (n / pow10 w mod 10 * pow10 w) + 0 = 10 * (n / pow10 w mod 10 * pow10 w)) /\
   n mod pow10 (S w) = n mod pow10 w + pow10 w * ((n / pow10 w) mod 10))%N.
Proof.
  split; [lia|].
  cbn [pow10]. rewrite (N.mul_comm 10 (pow10 w)).
  apply N.Div0.mod_mul_r.
Qed.

Lemma read_digits_zfill w : forall n rest acc,
  read_digits w (String.append (zfill w n) rest) acc
  = Some (acc * pow10 w + n mod pow10 w, rest)%N.
Proof.
  induction w as [|w IH]; intros n rest acc.
  - cbn [read_digits zfill String.append pow10]. f_equal. f_equal.
    rewrite N.mod_1_r. lia.
  - cbn [read_digits zfill String.append].
    rewrite char_digit_digit_char by (apply N.mod_upper_bound; lia).
    rewrite IH. f_equal. f_equal.
    destruct (mod_pow10_succ n w) as [_ ->]. cbn [pow10]. lia.
Qed.

Lemma read_digits_zfill_small w n rest :
  (n < pow10 w)%N ->
  read_digits w (String.append (zfill w n) rest) 0 = Some (n, rest).
Proof.
  intros H. rewrite read_digits_zfill, N.mod_small by exact H.
  reflexivity.
Qed.

Lemma expect_here c rest : expect c (String c rest) = Some rest.
Proof. unfold expect. now rewrite Ascii.eqb_refl. Qed.

Lemma read_number_acc_zfill w : forall n rest acc,
  no_digit_ahead rest ->
  read_number_acc (String.append (zfill w n) rest) acc
  = (acc * pow10 w + n mod pow10 w, rest)%N.
Proof.
  induction w as [|w IH]; intros n rest acc Hrest.
  - cbn [zfill String.append pow10]. rewrite N.mod_1_r.
    replace (acc * 1 + 0)%N with acc by lia.
    destruct rest as [|c rest]; cbn [read_number_acc]; [reflexivity|].
    cbn in Hrest. now rewrite Hrest.
  - cbn [read_number_acc zfill String.append].
    rewrite char_digit_digit_char by (apply N.mod_upper_bound; lia).
    rewrite IH by exact Hrest. f_equal.
    destruct (mod_pow10_succ n w) as [_ ->]. cbn [pow10]. lia.
Qed.

Lemma width_from_fits fuel : forall w n,
  (n < pow10 (w + fuel))%N -> (n < pow10 (width_from fuel w n))%N.
Proof.
  induction fuel as [|fuel IH]; intros w n H; cbn [width_from].
  - now rewrite Nat.add_0_r in H.
  - destruct (n <? pow10 w)%N eqn:E.
    + now apply N.ltb_lt.
    + apply IH. now replace (S w + fuel) with (w + S fuel) by lia.
Qed.

Lemma width_from_ge fuel : forall w n, w <= width_from fuel w n.
Proof.
  induction fuel as [|fuel IH]; intros w n; cbn [width_from]; [lia|].
  destruct (n <? pow10 w)%N; [lia|]. specialize (IH (S w) n). lia.
Qed.

Lemma dec_of_N_fits n : (n < pow10 (width_from (N.to_nat (N.size n)) 1 n))%N.
Proof.
  apply width_from_fits.
  pose proof (N.size_gt n) as H1.
  pose proof (pow10_ge_pow2 (N.to_nat (N.size n))) as H2.
  rewrite N2Nat.id in H2.
  change (1 + N.to_nat (N.size n)) with (S (N.to_nat (N.size n))).
  cbn [pow10]. lia.
Qed.

Lemma read_number_dec_of_N n rest :
  no_digit_ahead rest ->
  read_number (String.append (dec_of_N n) rest) = Some (n, rest).
Proof.
  intros Hrest. unfold dec_of_N.
  pose proof (dec_of_N_fits n) as Hfit.
  pose proof (width_from_ge (N.to_nat (N.size n)) 1 n) as Hw.
  set (w := width_from (N.to_nat (N.size n)) 1 n) in *.
  unfold read_number.
  rewrite read_number_acc_zfill by exact Hrest.
  rewrite N.mod_small by exact Hfit.
  destruct w as [|w]; [lia|].
  cbn [zfill String.append].
  rewrite char_digit_digit_char by (apply N.mod_upper_bound; lia).
  reflexivity.
Qed.

Lemma dec_of_N_head n :
  exists c r, dec_of_N n = String c r /\ c <> "-"%char.
Proof.
  unfold dec_of_N.
  pose proof (width_from_ge (N.to_nat (N.size n)) 1 n) as Hw.
  destruct (width_from (N.to_nat (N.size n)) 1 n) as [|w]; [lia|].
  cbn [zfill]. eexists _, _. split; [reflexivity|].
  intros E.
  assert (char_digit (digit_char (n / pow10 w mod 10)) = char_digit "-") as E'
    by now rewrite E.
  rewrite char_digit_digit_char in E' by (apply N.mod_upper_bound; lia).
  discriminate E'.
Qed.

Lemma read_int_dec_of_Z z rest :
  no_digit_ahead rest ->
  read_int (String.append (dec_of_Z z) rest) = Some (z, rest).
Proof.
  intros Hrest. unfold dec_of_Z, read_int.
  destruct (z <? 0)%Z eqn:E.
  - cbn [String.append]. rewrite Ascii.eqb_refl.
    rewrite read_number_dec_of_N by exact Hrest. cbn [mbind option_bind].
    apply Z.ltb_lt in E. f_equal. f_equal. lia.
  - destruct (dec_of_N_head (Z.to_N z)) as (c & r & Hc & Hne).
    pose proof (read_number_dec_of_N (Z.to_N z) rest Hrest) as Hr.
    rewrite Hc in *. cbn [String.append] in *.
    apply Ascii.eqb_neq in Hne. rewrite Hne.
    rewrite Hr. cbn [mbind option_bind].
    apply Z.ltb_ge in E. f_equal. f_equal. lia.
Qed.

(** ** Datetime *)

Lemma days_in_month_le y m : (days_in_month y m <= 31)%N.
Proof.
  unfold days_in_month.
  repeat match goal with |- context [if ?b then _ else _] => destruct b end; lia.
Qed.

Lemma valid_bounds d :
  valid d = true ->
  (year d < pow10 4 /\ month d < pow10 2 /\ day d < pow10 2 /\
   hour d < pow10 2 /\ minute d < pow10 2 /\ second d < pow10 2 /\
   microsecond d < pow10 6)%N.
Proof.
  unfold valid. rewrite !andb_true_iff.
  rewrite !N.leb_le, !N.ltb_lt.
  pose proof (days_in_month_le (year d) (month d)).
  cbn [pow10]. lia.
Qed.

Lemma read_isoformat_isoformat d rest :
  valid d = true -> no_dot_ahead rest ->
  read_isoformat (String.append (isoformat d) rest) = Some (d, rest).
Proof.
  intros Hv Hrest.
  destruct (valid_bounds d Hv) as (Hy & Hmo & Hd & Hh & Hmi & Hs & Hus).
  unfold read_isoformat, isoformat.
  repeat (rewrite append_assoc; cbn [String.append]).
  rewrite read_digits_zfill_small by exact Hy. cbn [mbind option_bind].
  rewrite expect_here. cbn [mbind option_bind].
  rewrite read_digits_zfill_small by exact Hmo. cbn [mbind option_bind].
  rewrite expect_here. cbn [mbind option_bind].
  rewrite read_digits_zfill_small by exact Hd. cbn [mbind option_bind].
  rewrite expect_here. cbn [mbind option_bind].
  rewrite read_digits_zfill_small by exact Hh. cbn [mbind option_bind].
  rewrite expect_here. cbn [mbind option_bind].
  rewrite read_digits_zfill_small by exact Hmi. cbn [mbind option_bind].
  rewrite expect_here. cbn [mbind option_bind].
  rewrite read_digits_zfill_small by exact Hs. cbn [mbind option_bind].
  destruct d as [y mo dd h mi ss us].
  cbn [year month day hour minute second microsecond] in *.
  destruct (us =? 0)%N eqn:Hz.
  - apply N.eqb_eq in Hz. subst us. cbn [String.append].
    destruct rest as [|c rest].
    + cbn [mbind option_bind]. rewrite Hv. reflexivity.
    + cbn in Hrest. apply Ascii.eqb_neq in Hrest. rewrite Hrest.
      cbn [mbind option_bind]. rewrite Hv. reflexivity.
  - cbn [String.append]. rewrite Ascii.eqb_refl.
    rewrite append_assoc. cbn [String.append].
    rewrite read_digits_zfill_small by exact Hus. cbn [mbind option_bind].
    rewrite Hv. reflexivity.
Qed.

(** [fromisoformat] undoes [isoformat] on every instant the constructor accepts. *)
Lemma fromisoformat_isoformat d :
  valid d = true -> fromisoformat (isoformat d) = Some d.
Proof.
  intros Hv. unfold fromisoformat.
  rewrite <- (append_nil_r (isoformat d)).
  rewrite read_isoformat_isoformat by (exact Hv || exact I).
  reflexivity.
Qed.

(** ** The worker *)

Lemma install_id i p s :
  procs s !! i = Some p -> install i (mkW p (data_queue s) (counter s)) s = s.
Proof.
  intros H. destruct s as [q st pa c l pr ru ps]. cbn in *.
  unfold install, set_proc, with_procs, with_counter, with_queue. cbn.
  now rewrite list_insert_id.
Qed.

Lemma install_install i w w' s : install i w (install i w' s) = install i w s.
Proof.
  unfold install, set_proc, with_procs, with_counter, with_queue. cbn.
  now rewrite list_insert_insert_eq.
Qed.

Lemma install_lookup i w s :
  i < length (procs s) -> procs (install i w s) !! i = Some (w_proc w).
Proof. intros H. cbn. now apply list_lookup_insert_eq. Qed.

Lemma install_lookup_ne i j w s :
  i <> j -> procs (install i w s) !! j = procs s !! j.
Proof. intros H. cbn. now apply list_lookup_insert_ne. Qed.

Lemma work_install now i w s :
  i < length (procs s) ->
  work now i (install i w s)
  = (fst (wstep now (stop_event s) (pause_event s) w),
     install i (snd (wstep now (stop_event s) (pause_event s) w)) s).
Proof.
  intros H. unfold work. rewrite install_lookup by exact H.
  cbn [stop_event pause_event data_queue counter install set_proc with_procs
       with_counter with_queue].
  destruct w as [p q c]. cbn [w_proc w_queue w_counter].
  destruct (wstep now (stop_event s) (pause_event s) (mkW p q c)) as [e w'].
  cbn [fst snd]. f_equal. apply install_install.
Qed.

Lemma work_n_install n : forall now i w s,
  i < length (procs s) ->
  work_n n now i (install i w s)
  = (fst (wrun n now (stop_event s) (pause_event s) w),
     install i (snd (wrun n now (stop_event s) (pause_event s) w)) s).
Proof.
  induction n as [|n IH]; intros now i w s H.
  - reflexivity.
  - cbn [work_n wrun]. rewrite work_install by exact H.
    destruct (wstep now (stop_event s) (pause_event s) w) as [e w1].
    cbn [fst snd]. rewrite IH by exact H.
    destruct (wrun n now (stop_event s) (pause_event s) w1) as [es w2].
    reflexivity.
Qed.

(** The steps of process [i] are those of [generate_data] on its view. *)
Lemma work_n_view n now i s p :
  procs s !! i = Some p ->
  work_n n now i s
  = (fst (wrun n now (stop_event s) (pause_event s)
               (mkW p (data_queue s) (counter s))),
     install i (snd (wrun n now (stop_event s) (pause_event s)
                          (mkW p (data_queue s) (counter s)))) s).
Proof.
  intros H. rewrite <- (install_id i p s H) at 1.
  apply work_n_install. eapply lookup_lt_Some; exact H.
Qed.

Lemma work_view now i s p :
  procs s !! i = Some p ->
  work now i s
  = (fst (wstep now (stop_event s) (pause_event s)
                (mkW p (data_queue s) (counter s))),
     install i (snd (wstep now (stop_event s) (pause_event s)
                           (mkW p (data_queue s) (counter s)))) s).
Proof.
  intros H. unfold work. rewrite H.
  now destruct (wstep now (stop_event s) (pause_event s)
                      (mkW p (data_queue s) (counter s))).
Qed.

Lemma wstep_dead now stop pause w :
  proc_alive (w_proc w) = false -> wstep now stop pause w = (EvIdle, w).
Proof. unfold wstep. now destruct (w_proc w). Qed.

Lemma wrun_dead n now stop pause w :
  proc_alive (w_proc w) = false ->
  wrun n now stop pause w = (repeat EvIdle n, w).
Proof.
  intros H. induction n as [|n IH]; [reflexivity|].
  cbn [wrun]. rewrite wstep_dead by exact H. now rewrite IH.
Qed.

Lemma work_dead now i s :
  is_alive i s = false -> work now i s = (EvIdle, s).
Proof.
  unfold is_alive. destruct (procs s !! i) as [p|] eqn:E.
  - intros H. rewrite (work_view now i s p E).
    rewrite wstep_dead by exact H. cbn [fst snd].
    now rewrite install_id.
  - intros _. unfold work. now rewrite E.
Qed.

Lemma work_n_dead n now i s :
  is_alive i s = false -> work_n n now i s = (repeat EvIdle n, s).
Proof.
  intros H. induction n as [|n IH]; [reflexivity|].
  cbn [work_n]. rewrite work_dead by exact H. now rewrite IH.
Qed.

(** C4. Once [stop_event] is set the worker finishes: from any program point
    it reaches the end of the process within [stop_distance] steps, the last
    of which is the stop check that ends the loop; on the way it sleeps at most
    once (at most 2000 ms) and completes at most the one emission it had
    begun, and once finished it does nothing any more.  At
    the loop head it leaves at once, touching neither counter nor queue.  The
    stop check heads every turn of the loop: the pause check is reached only
    from a stop check that found the flag clear, and both sleeps lead back to
    the stop check. *)
Theorem stop_ends_worker (s : state) (i : nat) (me : Z) (pc : wpc) (now : datetime) :
  procs s !! i = Some (Alive me pc) ->
  (stop_event s = true ->
   exists evs s',
     work_n (stop_distance (pause_event s) pc) now i s = (evs, s') /\
     last evs = Some EvExit /\
     procs s' !! i = Some (Exited me) /\
     count_ev is_sleep evs <= 1 /\ (slept evs <= 2000)%Z /\
     count_ev is_incr evs <= 1 /\ count_ev is_put evs <= 1 /\
     (forall k, work_n k now i s' = (repeat EvIdle k, s')) /\
     (pc = AtStop ->
      evs = [EvExit] /\ counter s' = counter s /\ data_queue s' = data_queue s)) /\
  (procs (snd (work now i s)) !! i = Some (Alive me AtPause) ->
   pc = AtStop /\ stop_event s = false) /\
  (is_sleep (fst (work now i s)) = true ->
   procs (snd (work now i s)) !! i = Some (Alive me AtStop)).
Proof.
  intros Hp. pose proof (lookup_lt_Some _ _ _ Hp) as Hi.
  split; [|split].
  - intros Hstop.
    rewrite (work_n_view _ now i s _ Hp), Hstop.
    eexists _, _. split; [reflexivity|].
    assert (forall w evs,
      wrun (stop_distance (pause_event s) pc) now true (pause_event s)
           (mkW (Alive me pc) (data_queue s) (counter s)) = (evs, w) ->
      last evs = Some EvExit /\ w_proc w = Exited me /\
      count_ev is_sleep evs <= 1 /\ (slept evs <= 2000)%Z /\
      count_ev is_incr evs <= 1 /\ count_ev is_put evs <= 1 /\
      (pc = AtStop -> evs = [EvExit] /\ w_counter w = counter s /\
                      w_queue w = data_queue s)) as Hrun.
    { intros w evs.
      destruct pc; destruct (pause_event s); cbn; intros [= <- <-]; cbn;
        repeat split; try lia; try discriminate; reflexivity. }
    destruct (wrun _ now true (pause_event s) _) as [evs w] eqn:E.
    destruct (Hrun w evs eq_refl) as (H1 & H2 & H3 & H4 & H6 & H7 & H5).
    cbn [fst snd]. rewrite install_lookup by exact Hi.
    repeat split; try assumption.
    + now rewrite H2.
    + intros k. apply work_n_dead. unfold is_alive.
      rewrite install_lookup by exact Hi. now rewrite H2.
    + now apply H5.
    + cbn. now apply H5.
    + cbn. now apply H5.
  - rewrite (work_view now i s _ Hp). cbn [snd].
    rewrite install_lookup by exact Hi.
    destruct pc; cbn; destruct (stop_event s), (pause_event s); cbn;
      intros [=]; split; reflexivity.
  - rewrite (work_view now i s _ Hp). cbn [fst snd].
    rewrite install_lookup by exact Hi.
    destruct pc; cbn; destruct (stop_event s), (pause_event s); cbn;
      intros [=]; reflexivity.
Qed.

Lemma wrun_paused now n : forall me pc q c evs w,
  wrun n now false true (mkW (Alive me pc) q c) = (evs, w) ->
  (exists pc', w_proc w = Alive me pc') /\
  count_ev is_incr evs <= incrs_due pc /\
  count_ev is_put evs <= puts_due pc /\
  (puts_due pc = 0 -> w_counter w = c /\ w_queue w = q).
Proof.
  induction n as [|n IH]; intros me pc q c evs w H.
  - injection H as <- <-. cbn. repeat split; eauto; lia.
  - cbn [wrun] in H.
    destruct pc; cbn [wstep w_proc w_queue w_counter] in H;
      match type of H with
      | context [wrun n now false true ?w1] =>
          destruct (wrun n now false true w1) as [es w2] eqn:E
      end;
      injection H as <- <-; apply IH in E;
      destruct E as ((pc' & Hpc') & Hi & Hq & Hsame);
      cbn [count_ev is_incr is_put incrs_due puts_due] in *;
      (split; [eauto|]); (split; [lia|]); (split; [lia|]);
      intros Hz; try discriminate Hz; apply Hsame; reflexivity.
Qed.

Lemma wrun_resumes now me pc q c :
  exists d, In (EvPut d) (fst (wrun 6 now false false (mkW (Alive me pc) q c))).
Proof. destruct pc; cbn; eexists; eauto 10. Qed.

(** C3, as the code has it.  While [pause_event] is set and [stop_event]
    clear, the worker stays alive however long it runs, and from a check or a
    sleep it neither increments the counter nor puts a sample; an emission
    whose pause check already found the flag clear is still carried out, so
    at most one increment and one put can follow the setting of the flag.  A
    pause check that finds the flag set is followed only by the 100 ms sleep
    and the return to the stop check.  With the flag clear again the worker
    puts a sample within six of its steps. *)
Theorem pause_holds_worker (s : state) (i : nat) (me : Z) (pc : wpc) (now : datetime) :
  procs s !! i = Some (Alive me pc) ->
  stop_event s = false ->
  (pause_event s = true ->
   forall n, exists evs s',
     work_n n now i s = (evs, s') /\
     is_alive i s' = true /\
     count_ev is_incr evs <= incrs_due pc /\
     count_ev is_put evs <= puts_due pc /\
     (puts_due pc = 0 -> counter s' = counter s /\ data_queue s' = data_queue s)) /\
  (pause_event s = true -> pc = AtPause ->
   exists s',
     work_n 2 now i s = ([EvCheck; EvSleep 100], s') /\
     procs s' !! i = Some (Alive me AtStop) /\
     counter s' = counter s /\ data_queue s' = data_queue s) /\
  (pause_event s = false ->
   exists d, In (EvPut d) (fst (work_n 6 now i s))).
Proof.
  intros Hp Hstop. pose proof (lookup_lt_Some _ _ _ Hp) as Hi.
  split; [|split].
  - intros Hpause n. rewrite (work_n_view n now i s _ Hp), Hstop, Hpause.
    destruct (wrun n now false true _) as [evs w] eqn:E.
    apply wrun_paused in E. destruct E as ((pc' & Hpc') & Hin & Hpu & Hsame).
    exists evs, (install i w s). cbn [fst snd].
    split; [reflexivity|]. unfold is_alive.
    rewrite install_lookup by exact Hi. rewrite Hpc'.
    repeat split; try assumption; cbn; now apply Hsame.
  - intros Hpause ->. rewrite (work_n_view 2 now i s _ Hp), Hstop, Hpause.
    cbn [wrun wstep w_proc w_queue w_counter fst snd].
    eexists. split; [reflexivity|].
    rewrite install_lookup by exact Hi. repeat split.
  - intros Hpause. rewrite (work_n_view 6 now i s _ Hp), Hstop, Hpause.
    cbn [fst]. apply wrun_resumes.
Qed.

(** ** The controller *)

Ltac run_m :=
  unfold mbind, M_bind, mret, M_ret, get, modify, raise, try_pass;
  cbn beta iota.

Lemma bind_ok {A B} (m : M A) (f : A -> M B) s a s1 :
  m s = (Ok a, s1) -> (m ≫= f) s = f a s1.
Proof. intros H. unfold mbind, M_bind. now rewrite H. Qed.

Lemma state_eta s :
  mkState (data_queue s) (stop_event s) (pause_event s) (counter s)
          (local_data s) (process s) (running s) (procs s) = s.
Proof. now destruct s. Qed.

Lemma handle_alive_inv s :
  handle_alive s = true ->
  exists i me pc, process s = Some i /\ procs s !! i = Some (Alive me pc).
Proof.
  unfold handle_alive, is_alive.
  destruct (process s) as [i|]; [|discriminate].
  destruct (procs s !! i) as [[|me pc|me]|] eqn:E; try discriminate.
  intros _. now exists i, me, pc.
Qed.

Lemma live_count_app s ps :
  live_count (with_procs (procs s ++ ps) s)
  = live_count s + length (filter (fun p => proc_alive p = true) ps).
Proof. unfold live_count. cbn. now rewrite filter_app, length_app. Qed.

Lemma live_count_snoc s p :
  live_count (with_procs (procs s ++ [p]) s)
  = live_count s + (if proc_alive p then 1 else 0).
Proof.
  rewrite live_count_app. f_equal.
  destruct (proc_alive p) eqn:E.
  - rewrite filter_cons_True by exact E. reflexivity.
  - rewrite filter_cons_False by (rewrite E; discriminate). reflexivity.
Qed.

Lemma start_alive spawn s : handle_alive s = true -> start spawn s = (Ok tt, s).
Proof. intros H. unfold start. run_m. now rewrite H. Qed.

Lemma start_spawned p s :
  handle_alive s = false ->
  start (Some p) s
  = (Ok tt, mkState (data_queue s) false false (counter s) (local_data s)
                    (Some (length (procs s))) true
                    (procs s ++ [Alive p AtStop])).
Proof.
  intros H. unfold start. run_m. rewrite H. cbn.
  unfold process_start, set_proc, with_procs, with_running. cbn.
  rewrite insert_app_r_alt by lia. now rewrite Nat.sub_diag.
Qed.

Lemma start_refused s :
  handle_alive s = false ->
  start None s
  = (Raise OSError,
     mkState (data_queue s) false false (counter s) (local_data s)
             (Some (length (procs s))) (running s) (procs s ++ [Unstarted])).
Proof. intros H. unfold start. run_m. rewrite H. reflexivity. Qed.

Lemma drain_idle fuel s : running s = false -> drain fuel s = (Ok tt, s).
Proof. intros H. unfold drain. run_m. now rewrite H. Qed.

Lemma drain_running fuel s :
  running s = true ->
  drain fuel s = while fuel (fun s => negb (queue_empty s)) drain_body s.
Proof. intros H. unfold drain. run_m. now rewrite H. Qed.

Lemma pause_toggle_eq s :
  pause_toggle s = (Ok tt, with_pause (negb (pause_event s)) s).
Proof. unfold pause_toggle. run_m. now destruct (pause_event s). Qed.

Lemma start_keeps_data spawn s r s' :
  start spawn s = (r, s') ->
  counter s' = counter s /\ local_data s' = local_data s /\
  data_queue s' = data_queue s.
Proof.
  intros H. destruct (handle_alive s) eqn:Ha.
  - rewrite start_alive in H by exact Ha. injection H as <- <-. now repeat split.
  - destruct spawn as [p|].
    + rewrite start_spawned in H by exact Ha. injection H as <- <-.
      now repeat split.
    + rewrite start_refused in H by exact Ha. injection H as <- <-.
      now repeat split.
Qed.

(** The worker a successful [start] creates works on the queue and the
    counter of the session. *)
Lemma started_worker_emits now p s s' :
  handle_alive s = false -> start (Some p) s = (Ok tt, s') ->
  exists s'',
    work_n 5 now (length (procs s)) s'
    = ([EvCheck; EvCheck; EvIncr (wrap32 (counter s + 1));
        EvCreate (sample_on_wire now (wrap32 (counter s + 1)) p);
        EvPut (sample_on_wire now (wrap32 (counter s + 1)) p)], s'') /\
    data_queue s''
    = data_queue s ++ [sample_on_wire now (wrap32 (counter s + 1)) p] /\
    counter s'' = wrap32 (counter s + 1).
Proof.
  intros Ha H. rewrite start_spawned in H by exact Ha. injection H as <-.
  rewrite (work_n_view 5 now _ _ (Alive p AtStop))
    by (cbn [procs]; now apply list_lookup_middle).
  cbn [stop_event pause_event data_queue counter].
  eexists. split; [reflexivity|]. split; reflexivity.
Qed.

(** C8. [start] changes nothing when the handle of the session is alive.
    Otherwise it clears both events and creates one new process: if the
    operating system starts it, that process is the new handle, it stands at
    the head of the worker loop, [running] is true and one more process is
    alive, so that a further [start] changes nothing, and the new worker
    counts on the counter and puts on the queue of the session; if the operating system
    refuses, [OSError] reaches the caller, no process is alive that was not
    before, and [running] is as it was, hence false wherever the Start button
    was enabled. *)
Theorem start_spec (s : state) :
  (handle_alive s = true -> forall spawn, start spawn s = (Ok tt, s)) /\
  (handle_alive s = false -> forall p, exists s',
     start (Some p) s = (Ok tt, s') /\
     stop_event s' = false /\ pause_event s' = false /\
     process s' = Some (length (procs s)) /\
     procs s' = procs s ++ [Alive p AtStop] /\
     running s' = true /\ handle_alive s' = true /\
     live_count s' = S (live_count s) /\
     (forall spawn', start spawn' s' = (Ok tt, s')) /\
     (forall now, exists evs s'',
        work_n 5 now (length (procs s)) s' = (evs, s'') /\
        data_queue s''
        = data_queue s ++ [sample_on_wire now (wrap32 (counter s + 1)) p] /\
        counter s'' = wrap32 (counter s + 1))) /\
  (handle_alive s = false -> exists s',
     start None s = (Raise OSError, s') /\
     stop_event s' = false /\ pause_event s' = false /\
     procs s' = procs s ++ [Unstarted] /\
     handle_alive s' = false /\ live_count s' = live_count s /\
     running s' = running s /\
     (start_disabled s = false -> running s' = false)).
Proof.
  split; [|split].
  - intros H spawn. now apply start_alive.
  - intros H p. eexists. split; [now apply start_spawned|].
    assert (handle_alive
              (mkState (data_queue s) false false (counter s) (local_data s)
                       (Some (length (procs s))) true
                       (procs s ++ [Alive p AtStop])) = true) as Ha.
    { unfold handle_alive, is_alive. cbn.
      now rewrite list_lookup_middle. }
    repeat split; try reflexivity; try exact Ha.
    + pose proof (live_count_snoc s (Alive p AtStop)) as Hl.
      unfold live_count in *. cbn in *. lia.
    + intros spawn'. now apply start_alive.
    + intros now.
      destruct (started_worker_emits now p s _ H (start_spawned p s H))
        as (s'' & H1 & H2 & H3).
      eexists _, s''. repeat split; eassumption.
  - intros H. eexists. split; [now apply start_refused|].
    repeat split; try reflexivity.
    + unfold handle_alive, is_alive. cbn.
      now rewrite list_lookup_middle.
    + pose proof (live_count_snoc s Unstarted) as Hl.
      unfold live_count in *. cbn in *. lia.
    + unfold start_disabled. cbn. auto.
Qed.

(** *** Loops *)

Lemma while_inv (I : state -> Prop) cond body :
  (forall s r s', I s -> cond s = true -> body s = (r, s') -> I s') ->
  forall fuel s r s',
    I s -> while fuel cond body s = (r, s') ->
    I s' /\ (r = Ok tt -> cond s' = false).
Proof.
  intros Hbody. induction fuel as [|fuel IH]; intros s r s' HI H;
    cbn [while] in H; destruct (cond s) eqn:C.
  - injection H as <- <-. split; [exact HI|discriminate].
  - injection H as <- <-. split; [exact HI|now intros _].
  - unfold mbind, M_bind in H.
    destruct (body s) as [[[]|e|] s1] eqn:B.
    + eapply IH; [|exact H]. eapply Hbody; eauto.
    + injection H as <- <-. split; [|discriminate]. eapply Hbody; eauto.
    + injection H as <- <-. split; [|discriminate]. eapply Hbody; eauto.
  - injection H as <- <-. split; [exact HI|now intros _].
Qed.

Lemma while_total (I : state -> Prop) (m : state -> nat) cond body :
  (forall s, I s -> cond s = true ->
             exists s', body s = (Ok tt, s') /\ I s' /\ m s' < m s) ->
  forall fuel s, I s -> m s <= fuel ->
                 exists s', while fuel cond body s = (Ok tt, s').
Proof.
  intros Hbody. induction fuel as [|fuel IH]; intros s HI Hm;
    cbn [while]; destruct (cond s) eqn:C; eauto.
  - destruct (Hbody s HI C) as (s1 & _ & _ & Hlt). lia.
  - destruct (Hbody s HI C) as (s1 & B & HI1 & Hlt).
    unfold mbind, M_bind. rewrite B. apply IH; [exact HI1|lia].
Qed.

(** *** [join] *)

Lemma joining_start i me pc s :
  procs s !! i = Some (Alive me pc) ->
  joining i me s (with_stop true s).
Proof.
  intros Hp. unfold joining. cbn.
  repeat split. exists (Alive me pc).
  split; [right; eauto|]. split; [now rewrite list_insert_id|].
  destruct pc; cbn; lia.
Qed.

Lemma joining_step now i me s0 s1 :
  i < length (procs s0) ->
  joining i me s0 s1 -> is_alive i s1 = true ->
  joining i me s0 (snd (work now i s1)) /\
  join_distance i (snd (work now i s1)) < join_distance i s1.
Proof.
  intros Hi (Hst & Hpa & Hlo & Hpr & Hru & p & Hsame & Hps & Hq) Halive.
  assert (procs s1 !! i = Some p) as Hp
    by (rewrite Hps; now apply list_lookup_insert_eq).
  unfold is_alive in Halive. rewrite Hp in Halive.
  destruct Hsame as [-> | [pc ->]]; [discriminate|].
  assert (i < length (procs s1)) as Hi1 by (eapply lookup_lt_Some; exact Hp).
  rewrite (work_view now i s1 _ Hp). cbn [snd].
  unfold join_distance. rewrite install_lookup by exact Hi1. rewrite Hp.
  unfold joining. cbn [stop_event pause_event local_data process running
    data_queue procs install set_proc with_procs with_counter with_queue].
  rewrite Hst, Hps, list_insert_insert_eq.
  destruct pc; destruct (pause_event s1); cbn;
    (split; [|lia]);
    (repeat (split; [assumption|]));
    (refine (ex_intro _ _ (conj _ (conj eq_refl _)));
     [first [left; reflexivity | right; eexists; reflexivity]
     |cbn in *; rewrite ?length_app; cbn; lia]).
Qed.

Lemma join_spec fuel now i me pc s :
  process s = Some i -> procs s !! i = Some (Alive me pc) ->
  (forall r s', join fuel now (with_stop true s) = (r, s') ->
     (forall e, r <> Raise e) /\
     (r = Ok tt -> joining i me s s' /\ procs s' = <[i := Exited me]> (procs s))) /\
  (6 <= fuel -> exists s', join fuel now (with_stop true s) = (Ok tt, s')).
Proof.
  intros Hpr Hp. pose proof (lookup_lt_Some _ _ _ Hp) as Hi.
  unfold join. cbn [process with_stop]. rewrite Hpr.
  split.
  - intros r s' H.
    assert (forall fuel s1 r s',
      while fuel (is_alive i) (modify (fun s => snd (work now i s))) s1 = (r, s') ->
      forall e, r <> Raise e) as Hnoraise.
    { clear. induction fuel as [|fuel IH]; intros s1 r s' H e;
        cbn [while] in H; destruct (is_alive i s1).
      - injection H as <- <-. discriminate.
      - injection H as <- <-. discriminate.
      - unfold mbind, M_bind, modify in H. eapply IH; exact H.
      - injection H as <- <-. discriminate. }
    split; [eapply Hnoraise; exact H|].
    intros ->.
    destruct (while_inv (joining i me s) (is_alive i)
                (modify (fun s => snd (work now i s)))) with
      (fuel := fuel) (s := with_stop true s) (r := @Ok unit tt) (s' := s')
      as [HJ Hdead].
    + intros s1 r1 s2 HJ1 Ha Hb. unfold modify in Hb. injection Hb as <- <-.
      now apply joining_step.
    + eapply joining_start; exact Hp.
    + exact H.
    + split; [exact HJ|]. specialize (Hdead eq_refl).
      destruct HJ as (_ & _ & _ & _ & _ & p & Hsame & Hps & _).
      unfold is_alive in Hdead. rewrite Hps in Hdead.
      rewrite list_lookup_insert_eq in Hdead by exact Hi.
      destruct Hsame as [-> | [pc' ->]]; [exact Hps|discriminate].
  - intros Hfuel.
    apply (while_total (joining i me s) (join_distance i)).
    + intros s1 HJ Ha. eexists. split; [reflexivity|].
      now apply joining_step.
    + eapply joining_start; exact Hp.
    + unfold join_distance. cbn [procs with_stop pause_event]. rewrite Hp.
      cbn. destruct pc, (pause_event s); cbn; lia.
Qed.

(** *** [clear] *)

Lemma with_queue_nil s : data_queue s = [] -> with_queue [] s = s.
Proof. destruct s. cbn. now intros ->. Qed.

Lemma queue_empty_nil s : data_queue s = [] -> queue_empty s = true.
Proof. unfold queue_empty. now intros ->. Qed.

Lemma queue_empty_cons s d q : data_queue s = d :: q -> queue_empty s = false.
Proof. unfold queue_empty. now intros ->. Qed.

Lemma discard_queue_spec fuel : forall s,
  (length (data_queue s) <= fuel ->
   discard_queue fuel s = (Ok tt, with_queue [] s)) /\
  (forall r s', discard_queue fuel s = (r, s') ->
     (forall e, r <> Raise e) /\ (r = Ok tt -> s' = with_queue [] s)).
Proof.
  unfold discard_queue.
  induction fuel as [|fuel IH]; intros s; cbn [while];
    destruct (data_queue s) as [|d q] eqn:Q; cbn [length];
    rewrite ?(queue_empty_nil s Q), ?(queue_empty_cons s d q Q); cbn [negb].
  - rewrite with_queue_nil by exact Q. split; [reflexivity|].
    intros r s' [= <- <-]. split; [discriminate|reflexivity].
  - split; [lia|]. intros r s' [= <- <-]. split; discriminate.
  - rewrite with_queue_nil by exact Q. split; [reflexivity|].
    intros r s' [= <- <-]. split; [discriminate|reflexivity].
  - assert (try_pass (get_nowait ≫= fun _ => mret tt) s
            = (Ok tt, with_queue q s)) as B
      by (run_m; unfold get_nowait; now rewrite Q).
    rewrite (bind_ok _ _ _ _ _ B).
    destruct (IH (with_queue q s)) as [IH1 IH2]. cbn [data_queue with_queue] in IH1.
    split.
    + intros Hf. apply IH1. lia.
    + intros r s' H. apply IH2 in H. exact H.
Qed.

Lemma cleared_alive s i me pc :
  process s = Some i -> procs s !! i = Some (Alive me pc) ->
  cleared s = mkState [] true (pause_event s) 0%Z [] None false
                      (<[i := Exited me]> (procs s)).
Proof.
  intros Hpr Hp. unfold cleared, handle_alive, is_alive.
  now rewrite Hpr, Hp.
Qed.

Lemma cleared_dead s :
  handle_alive s = false ->
  cleared s = mkState [] (stop_event s) (pause_event s) 0%Z [] None false (procs s).
Proof.
  intros H. unfold cleared. rewrite H.
  unfold handle_alive, is_alive in H.
  destruct (process s) as [i|]; [|reflexivity].
  destruct (procs s !! i) as [[|me pc|me]|]; try reflexivity. discriminate.
Qed.

(** [clear] never raises; whenever it returns, the session is [cleared s];
    and it returns once the fuel covers the six steps a stopping worker can
    take and the queue it leaves. *)
Lemma clear_spec fuel now s :
  (forall r s', clear fuel now s = (r, s') ->
     (forall e, r <> Raise e) /\ (r = Ok tt -> s' = cleared s)) /\
  (length (data_queue s) + 7 <= fuel -> clear fuel now s = (Ok tt, cleared s)).
Proof.
  unfold clear. run_m. destruct (handle_alive s) eqn:Ha.
  - destruct (handle_alive_inv s Ha) as (i & me & pc & Hpr & Hp).
    rewrite (cleared_alive s i me pc Hpr Hp).
    destruct (join_spec fuel now i me pc s Hpr Hp) as [Hj1 Hj2].
    destruct (join fuel now (with_stop true s)) as [[[]|e|] s1] eqn:J.
    + destruct (Hj1 _ _ eq_refl) as [_ Hok].
      destruct (Hok eq_refl) as [(Hst & Hpa & _ & _ & _ & p & _ & _ & Hq) Hps].
      match goal with |- context [discard_queue fuel ?s2] =>
        destruct (discard_queue_spec fuel s2) as [Hd1 Hd2];
        assert (with_queue [] s2
                = mkState [] true (pause_event s) 0%Z [] None false
                          (<[i := Exited me]> (procs s))) as E
          by (unfold with_queue; cbn; now rewrite Hst, Hpa, Hps)
      end.
      rewrite E in Hd1, Hd2. cbn [data_queue with_running with_process
        with_counter with_local] in Hd1.
      split.
      * intros r s' H. apply Hd2 in H. exact H.
      * intros Hf. apply Hd1.
        assert (put_ahead p >= 0) by lia. lia.
    + destruct (Hj1 _ _ eq_refl) as [Hno _]. now destruct (Hno e).
    + split.
      * intros r s' [= <- <-]. split; discriminate.
      * intros Hf. destruct Hj2 as (s' & Hs'); [lia|]. discriminate Hs'.
  - rewrite (cleared_dead s Ha).
    match goal with |- context [discard_queue fuel ?s2] =>
      destruct (discard_queue_spec fuel s2) as [Hd1 Hd2] end.
    cbn [data_queue with_running with_process with_counter with_local] in Hd1.
    split.
    + intros r s' H. apply Hd2 in H. exact H.
    + intros Hf. apply Hd1. lia.
Qed.

Lemma cleared_cleared s : cleared (cleared s) = cleared s.
Proof. unfold cleared at 1. cbn. reflexivity. Qed.

Lemma clear_dead fuel now s :
  handle_alive s = false -> length (data_queue s) <= fuel ->
  clear fuel now s = (Ok tt, cleared s).
Proof.
  intros Ha Hf. unfold clear. run_m. rewrite Ha, (cleared_dead s Ha).
  match goal with |- context [discard_queue fuel ?s2] =>
    destruct (discard_queue_spec fuel s2) as [Hd1 _] end.
  apply Hd1. exact Hf.
Qed.

Lemma live_insert_dead (l : list proc) : forall i x,
  proc_alive x = false ->
  length (filter (fun p => proc_alive p = true) (<[i := x]> l))
  <= length (filter (fun p => proc_alive p = true) l).
Proof.
  induction l as [|a l IH]; intros i x Hx; [reflexivity|].
  destruct i as [|i]; cbn [insert list_insert].
  - rewrite filter_cons_False by (rewrite Hx; discriminate).
    rewrite filter_cons. destruct (decide (proc_alive a = true)); cbn;
      auto with arith.
  - rewrite !filter_cons. specialize (IH i x Hx).
    destruct (decide (proc_alive a = true)); cbn; auto with arith.
Qed.

Lemma live_count_cleared s : live_count (cleared s) <= live_count s.
Proof.
  unfold live_count, cleared. cbn [procs].
  destruct (process s) as [i|]; [|reflexivity].
  destruct (procs s !! i) as [[|me pc|me]|]; try reflexivity.
  now apply live_insert_dead.
Qed.

(** C1. Called in any state in which the Clear button is enabled, with
    fuel for the worker's last steps and for the queue, [clear] returns, and
    then the buffer is empty, the counter is 0, [running] is false and the
    queue is empty; so does the whole script run that a click on Clear
    triggers.  Called again in the state it left, [clear] returns that very
    state, whatever the fuel. *)
Theorem clear_resets_session (s : state) (fuel : nat) (now : datetime) :
  clear_disabled s = false ->
  length (data_queue s) + 7 <= fuel ->
  exists s',
    clear fuel now s = (Ok tt, s') /\
    local_data s' = [] /\ counter s' = 0%Z /\ running s' = false /\
    data_queue s' = [] /\
    process s' = None /\ live_count s' <= live_count s /\
    (forall spawn, main fuel now spawn (Some Clear) s = (Ok tt, s')) /\
    (forall fuel' now', clear fuel' now' s' = (Ok tt, s')).
Proof.
  intros Hen Hf. exists (cleared s).
  destruct (clear_spec fuel now s) as [_ Hc]. specialize (Hc Hf).
  split; [exact Hc|].
  repeat split.
  - apply live_count_cleared.
  - intros spawn. unfold main.
    rewrite (bind_ok get _ s s s eq_refl). cbn [st_button button_eqb andb].
    rewrite (bind_ok (mret tt) _ s tt s eq_refl).
    rewrite (bind_ok get _ s s s eq_refl). cbn [st_button button_eqb andb].
    rewrite (bind_ok (mret tt) _ s tt s eq_refl).
    rewrite (bind_ok get _ s s s eq_refl). cbn [st_button button_eqb andb].
    rewrite Hen. cbn [negb].
    rewrite (bind_ok _ _ _ _ _ Hc).
    now apply drain_idle.
  - intros fuel' now'.
    rewrite <- (cleared_cleared s) at 2.
    apply clear_dead; [reflexivity|cbn; lia].
Qed.

(** *** The drain *)

Lemma drain_body_nil s : data_queue s = [] -> drain_body s = (Ok tt, s).
Proof.
  intros Q. unfold drain_body. run_m. unfold get_nowait. now rewrite Q.
Qed.

Lemma drain_body_cons s d q :
  data_queue s = d :: q ->
  drain_body s
  = (Ok tt, with_local (local_data s ++ appended d) (with_queue q s)).
Proof.
  intros Q. unfold drain_body, appended, parsed. run_m.
  unfold get_nowait. rewrite Q. cbn beta iota. unfold parse_timestamp.
  destruct (timestamp d) as [txt|t]; [destruct (fromisoformat txt)|];
    run_m; cbn; rewrite ?app_nil_r; reflexivity.
Qed.

Lemma drain_loop_spec fuel : forall s,
  (length (data_queue s) <= fuel ->
   while fuel (fun s => negb (queue_empty s)) drain_body s
   = (Ok tt, with_local (local_data s ++ omap parsed (data_queue s))
                        (with_queue [] s))) /\
  (forall r s', while fuel (fun s => negb (queue_empty s)) drain_body s = (r, s') ->
                forall e, r <> Raise e).
Proof.
  induction fuel as [|fuel IH]; intros s; cbn [while];
    destruct (data_queue s) as [|d q] eqn:Q; cbn [length];
    rewrite ?(queue_empty_nil s Q), ?(queue_empty_cons s d q Q); cbn [negb].
  - split; [|intros r s' [= <- <-]; discriminate].
    intros _. cbn. rewrite app_nil_r. f_equal.
    destruct s; cbn in *; now subst.
  - split; [lia|]. intros r s' [= <- <-]. discriminate.
  - split; [|intros r s' [= <- <-]; discriminate].
    intros _. cbn. rewrite app_nil_r. f_equal.
    destruct s; cbn in *; now subst.
  - rewrite (bind_ok _ _ _ _ _ (drain_body_cons s d q Q)).
    destruct (IH (with_local (local_data s ++ appended d) (with_queue q s)))
      as [IH1 IH2].
    cbn [data_queue local_data with_local with_queue] in IH1.
    split; [|exact IH2].
    intros Hf. rewrite IH1 by lia. f_equal.
    unfold with_local, with_queue. cbn. f_equal.
    rewrite <- app_assoc. f_equal. unfold appended.
    now destruct (parsed d).
Qed.

(** *** The counter *)

Lemma wrap32_small z : (- 2 ^ 31 <= z < 2 ^ 31)%Z -> wrap32 z = z.
Proof.
  intros H. unfold wrap32.
  change (2 ^ 31)%Z with 2147483648%Z in *.
  change (2 ^ 32)%Z with 4294967296%Z.
  rewrite Z.mod_small by lia. lia.
Qed.

Lemma wrap32_wrap a b : wrap32 (wrap32 a + b) = wrap32 (a + b).
Proof.
  unfold wrap32. f_equal.
  replace ((a + 2 ^ 31) mod 2 ^ 32 - 2 ^ 31 + b + 2 ^ 31)%Z
    with ((a + 2 ^ 31) mod 2 ^ 32 + b)%Z by lia.
  rewrite Z.add_mod_idemp_l by (change (2 ^ 32)%Z with 4294967296%Z; lia).
  f_equal. lia.
Qed.

Lemma steps_upto_S n :
  steps_upto (S n) = steps_upto n ++ [wrap32 (Z.of_nat (S n))].
Proof. unfold steps_upto. now rewrite seq_S, map_app. Qed.

Lemma length_steps_upto n : length (steps_upto n) = n.
Proof. unfold steps_upto. now rewrite length_map, length_seq. Qed.

(** *** Samples on the wire and in the buffer *)

Lemma parsed_wire_ok d :
  wire_ok d ->
  exists t, valid t = true /\
            parsed d = Some (with_timestamp (TsDatetime t) d) /\
            to_wire (with_timestamp (TsDatetime t) d) = d.
Proof.
  intros (t & Hv & Ht). exists t. split; [exact Hv|].
  unfold parsed, to_wire. rewrite Ht, fromisoformat_isoformat by exact Hv.
  split; [reflexivity|]. destruct d as [ts st me]. cbn in *. now subst ts.
Qed.

(** ** The invariant *)

Lemma reserved_at s i p :
  process s = Some i -> procs s !! i = Some p -> reserved s = pc_reserved p.
Proof. intros H1 H2. unfold reserved. now rewrite H1, H2. Qed.

Lemma pending_at s i p :
  process s = Some i -> procs s !! i = Some p -> pending s = pc_pending p.
Proof. intros H1 H2. unfold pending. now rewrite H1, H2. Qed.

Lemma handle_alive_at s i p :
  process s = Some i -> procs s !! i = Some p -> handle_alive s = proc_alive p.
Proof. intros H1 H2. unfold handle_alive, is_alive. now rewrite H1, H2. Qed.

Lemma handle_dead_quiet s :
  handle_alive s = false -> reserved s = [] /\ pending s = [].
Proof.
  unfold handle_alive, is_alive, reserved, pending.
  destruct (process s) as [i|]; [|now split].
  destruct (procs s !! i) as [[|me pc|me]|]; now split.
Qed.

Lemma inv_init : inv [] init.
Proof.
  constructor; cbn; try reflexivity; try discriminate; try constructor.
Qed.

Lemma inv_install h h' s i me pc pc' q' c' :
  inv h s -> process s = Some i -> procs s !! i = Some (Alive me pc) ->
  c' = wrap32 (Z.of_nat (length h' + length (pc_reserved (Alive me pc')))) ->
  (forall st, pc_reserved (Alive me pc') = [st] -> st = c') ->
  map step h' = steps_upto (length h') ->
  map to_wire (local_data s) ++ q' ++ pc_pending (Alive me pc') = h' ->
  Forall wire_ok h' -> Forall (fun d => pid d = me) h' ->
  inv h' (install i (mkW (Alive me pc') q' c') s).
Proof.
  intros HI Hpr Hp Hc Hres Hst Hlog Hwire Hpid.
  pose proof (lookup_lt_Some _ _ _ Hp) as Hi.
  assert (procs (install i (mkW (Alive me pc') q' c') s) !! i
          = Some (Alive me pc')) as Hp' by now apply install_lookup.
  assert (process (install i (mkW (Alive me pc') q' c') s) = Some i) as Hpr'
    by exact Hpr.
  pose proof (handle_alive_at s i _ Hpr Hp) as Ha. cbn in Ha.
  destruct (inv_alive_running _ _ HI Ha) as [Hrun Hstop].
  constructor.
  - intros j p Hj Hal. destruct (decide (j = i)) as [->|Hne]; [exact Hpr|].
    rewrite install_lookup_ne in Hj by auto.
    exact (inv_only_handle _ _ HI j p Hj Hal).
  - intros _. split; [exact Hrun|exact Hstop].
  - intros _. now rewrite (handle_alive_at _ i _ Hpr' Hp').
  - rewrite (handle_alive_at _ i _ Hpr' Hp'). discriminate.
  - rewrite (reserved_at _ i _ Hpr' Hp'). exact Hc.
  - rewrite (reserved_at _ i _ Hpr' Hp'). exact Hres.
  - exact Hst.
  - rewrite (pending_at _ i _ Hpr' Hp'). exact Hlog.
  - exact Hwire.
  - exact (inv_buffer _ _ HI).
  - intros i0 me0 pc0 H1 H2. rewrite Hpr' in H1. injection H1 as <-.
    rewrite Hp' in H2. injection H2 as <- <-. exact Hpid.
Qed.

Lemma inv_work h s i now :
  valid now = true -> inv h s ->
  inv (log_after h s (LWork i now)) (snd (work now i s)).
Proof.
  intros Hv HI. unfold log_after.
  destruct (is_alive i s) eqn:Ha.
  2: { rewrite work_dead by exact Ha. exact HI. }
  unfold is_alive in Ha. destruct (procs s !! i) as [p|] eqn:Hp; [|discriminate].
  destruct p as [|me pc|me]; try discriminate. clear Ha.
  pose proof (inv_only_handle _ _ HI i _ Hp eq_refl) as Hpr.
  pose proof (handle_alive_at s i _ Hpr Hp) as Ha. cbn in Ha.
  destruct (inv_alive_running _ _ HI Ha) as [Hrun Hstop].
  pose proof (inv_counter _ _ HI) as Hc.
  pose proof (inv_reserved _ _ HI) as Hres.
  pose proof (inv_log _ _ HI) as Hlog.
  rewrite (reserved_at s i _ Hpr Hp) in Hc, Hres.
  rewrite (pending_at s i _ Hpr Hp) in Hlog.
  pose proof (inv_steps _ _ HI) as Hst.
  pose proof (inv_wire _ _ HI) as Hwire.
  pose proof (inv_pid _ _ HI i me pc Hpr Hp) as Hpid.
  rewrite (work_view now i s _ Hp). cbn [fst snd]. rewrite Hstop.
  destruct pc as [| | |st|d| |]; cbn [wstep w_proc w_queue w_counter];
    try match goal with
        | |- context [if pause_event s then _ else _] => destruct (pause_event s)
        end; cbn [fst snd];
    cbn [pc_reserved pc_pending length] in *.
  all: try (eapply inv_install; eauto; fail).
  - (* the locked increment *)
    eapply inv_install; eauto; cbn [pc_reserved pc_pending length].
    + rewrite Hc, wrap32_wrap. f_equal. lia.
    + now intros st [= <-].
  - (* the dict is built *)
    specialize (Hres st eq_refl). subst st.
    eapply inv_install; eauto; cbn [pc_reserved pc_pending length].
    + rewrite Hc, length_app. cbn [length]. f_equal. lia.
    + intros st [=].
    + rewrite map_app, length_app, Hst. cbn [map length step].
      rewrite Nat.add_1_r, steps_upto_S. f_equal. f_equal.
      rewrite Hc. f_equal. lia.
    + rewrite app_nil_r in Hlog. now rewrite <- Hlog, <- app_assoc.
    + apply Forall_app. split; [exact Hwire|].
      constructor; [|constructor]. exists now. now split.
    + apply Forall_app. split; [exact Hpid|]. now repeat constructor.
  - (* the put *)
    eapply inv_install; eauto; cbn [pc_reserved pc_pending length].
    now rewrite app_nil_r.
Qed.

Lemma inv_pause h s b : inv h s -> inv h (with_pause b s).
Proof. intros []. constructor; assumption. Qed.

Lemma inv_drain_turn h s d q :
  inv h s -> data_queue s = d :: q ->
  inv h (with_local (local_data s ++ appended d) (with_queue q s)) /\
  exists d', appended d = [d'] /\ to_wire d' = d /\ buffered_ok d'.
Proof.
  intros HI Q.
  pose proof (inv_log _ _ HI) as Hlog. rewrite Q in Hlog.
  pose proof (inv_wire _ _ HI) as Hwire. rewrite <- Hlog in Hwire.
  apply Forall_app in Hwire as [_ Hwire]. cbn in Hwire.
  apply Forall_cons in Hwire as [Hd _].
  destruct (parsed_wire_ok d Hd) as (t & Hv & Hparsed & Hback).
  assert (appended d = [with_timestamp (TsDatetime t) d]) as Happ
    by (unfold appended; now rewrite Hparsed).
  split.
  - destruct HI. constructor; try assumption.
    + cbn [local_data data_queue with_local with_queue].
      change (pending (with_local (local_data s ++ appended d) (with_queue q s)))
        with (pending s).
      rewrite Happ, map_app. cbn [map]. rewrite Hback, <- app_assoc.
      exact Hlog.
    + cbn [local_data with_local]. apply Forall_app. split; [assumption|].
      rewrite Happ. constructor; [|constructor]. exists t. now split.
  - eexists. split; [exact Happ|]. split; [exact Hback|]. exists t. now split.
Qed.

Lemma cleared_all_dead h s :
  inv h s -> forall j p, procs (cleared s) !! j = Some p -> proc_alive p = false.
Proof.
  intros HI j p Hj. destruct (proc_alive p) eqn:Hal; [|reflexivity]. exfalso.
  unfold cleared in Hj. cbn [procs] in Hj.
  destruct (process s) as [i|] eqn:Hpr.
  - destruct (procs s !! i) as [[|me pc|me]|] eqn:Hp.
    + pose proof (inv_only_handle _ _ HI j p Hj Hal) as E.
      assert (i = j) as -> by congruence.
      rewrite Hp in Hj. injection Hj as <-. discriminate.
    + destruct (decide (j = i)) as [->|Hne].
      * rewrite list_lookup_insert_eq in Hj
          by (eapply lookup_lt_Some; exact Hp).
        injection Hj as <-. discriminate.
      * rewrite list_lookup_insert_ne in Hj by auto.
        pose proof (inv_only_handle _ _ HI j p Hj Hal) as E.
        apply Hne. congruence.
    + pose proof (inv_only_handle _ _ HI j p Hj Hal) as E.
      assert (i = j) as -> by congruence.
      rewrite Hp in Hj. injection Hj as <-. discriminate.
    + pose proof (inv_only_handle _ _ HI j p Hj Hal) as E.
      assert (i = j) as -> by congruence.
      rewrite Hp in Hj. discriminate.
  - pose proof (inv_only_handle _ _ HI j p Hj Hal) as E. congruence.
Qed.

Lemma inv_cleared h s : inv h s -> inv [] (cleared s).
Proof.
  intros HI. constructor; cbn; try reflexivity; try discriminate;
    try constructor.
  intros j p Hj Hal.
  pose proof (cleared_all_dead h s HI j p Hj) as Hd.
  rewrite Hd in Hal. discriminate.
Qed.

Lemma inv_idle_fields h s :
  inv h s -> handle_alive s = false ->
  h = [] /\ local_data s = [] /\ data_queue s = [] /\ counter s = 0%Z /\
  running s = false.
Proof.
  intros HI Ha.
  pose proof (inv_idle_empty _ _ HI Ha) as ->.
  destruct (handle_dead_quiet s Ha) as [Hres Hpen].
  pose proof (inv_log _ _ HI) as Hlog. pose proof (inv_counter _ _ HI) as Hc.
  rewrite Hres in Hc. rewrite Hpen, app_nil_r in Hlog.
  apply app_eq_nil in Hlog as [Hl Hq].
  apply map_eq_nil in Hl.
  repeat split; try assumption.
  destruct (running s) eqn:Hr; [|reflexivity].
  rewrite (inv_running_alive _ _ HI Hr) in Ha. discriminate.
Qed.

Lemma inv_start h s spawn r s' :
  inv h s -> start spawn s = (r, s') -> inv h s'.
Proof.
  intros HI H. destruct (handle_alive s) eqn:Ha.
  - rewrite start_alive in H by exact Ha. now injection H as <- <-.
  - destruct (inv_idle_fields h s HI Ha) as (-> & Hl & Hq & Hc & Hr).
    destruct (handle_dead_quiet s Ha) as [Hres Hpen].
    assert (forall j p, procs s !! j = Some p -> proc_alive p = false) as Hdead.
    { intros j p Hj. destruct (proc_alive p) eqn:Hal; [|reflexivity].
      pose proof (inv_only_handle _ _ HI j p Hj Hal) as E.
      rewrite (handle_alive_at s j p E Hj), Hal in Ha. discriminate. }
    assert (forall x j p, (procs s ++ [x]) !! j = Some p ->
                          proc_alive p = true -> j = length (procs s) /\ p = x)
      as Hnew.
    { intros x j p Hj Hal. apply lookup_app_Some in Hj as [Hj|[Hge Hj]].
      - rewrite (Hdead j p Hj) in Hal. discriminate.
      - destruct (j - length (procs s)) as [|k] eqn:E; cbn in Hj; [|discriminate].
        injection Hj as <-. split; [lia|reflexivity]. }
    destruct spawn as [p|].
    + rewrite start_spawned in H by exact Ha. injection H as <- <-.
      constructor; cbn [procs process running stop_event counter local_data
                        data_queue].
      * intros j p0 Hj Hal. destruct (Hnew _ j p0 Hj Hal) as [-> _]. reflexivity.
      * intros _. now split.
      * intros _. unfold handle_alive, is_alive. cbn.
        now rewrite list_lookup_middle.
      * reflexivity.
      * unfold reserved. cbn. rewrite list_lookup_middle by reflexivity.
        cbn. exact Hc.
      * unfold reserved. cbn. rewrite list_lookup_middle by reflexivity.
        cbn. discriminate.
      * reflexivity.
      * unfold pending. cbn. rewrite list_lookup_middle by reflexivity.
        cbn. now rewrite Hl, Hq.
      * constructor.
      * rewrite Hl. constructor.
      * intros; constructor.
    + rewrite start_refused in H by exact Ha. injection H as <- <-.
      constructor; cbn [procs process running stop_event counter local_data
                        data_queue].
      * intros j p0 Hj Hal. destruct (Hnew _ j p0 Hj Hal) as [_ ->]. discriminate.
      * unfold handle_alive, is_alive. cbn.
        rewrite list_lookup_middle by reflexivity. discriminate.
      * rewrite Hr. discriminate.
      * reflexivity.
      * unfold reserved. cbn. rewrite list_lookup_middle by reflexivity.
        cbn. exact Hc.
      * unfold reserved. cbn. rewrite list_lookup_middle by reflexivity.
        cbn. discriminate.
      * reflexivity.
      * unfold pending. cbn. rewrite list_lookup_middle by reflexivity.
        cbn. now rewrite Hl, Hq.
      * constructor.
      * rewrite Hl. constructor.
      * intros; constructor.
Qed.

Lemma inv_step h s l s' :
  inv h s -> sys_step s l s' -> inv (log_after h s l) s'.
Proof.
  intros HI Hstep. destruct Hstep as
    [spawn s r s' H | s s' H | fuel now s s' Hv H | s s' Hr Hq H | i now s Hv].
  - cbn [log_after]. eapply inv_start; eauto.
  - cbn [log_after]. rewrite pause_toggle_eq in H. injection H as <-.
    now apply inv_pause.
  - cbn [log_after]. destruct (clear_spec fuel now s) as [Hc _].
    destruct (Hc _ _ H) as [_ E]. rewrite (E eq_refl).
    eapply inv_cleared; eauto.
  - cbn [log_after]. unfold queue_empty in Hq.
    destruct (data_queue s) as [|d q] eqn:Q; [discriminate|].
    rewrite (drain_body_cons s d q Q) in H. injection H as <-.
    now apply inv_drain_turn.
  - now apply inv_work.
Qed.

(** Every state the session can reach satisfies the invariant. *)
Lemma inv_traced h s : traced h s -> inv h s.
Proof.
  induction 1 as [|h s l s' _ IH Hstep]; [exact inv_init|].
  now apply inv_step.
Qed.

(** ** At most one worker *)

Lemma none_alive (l : list proc) :
  (forall k q, l !! k = Some q -> proc_alive q = false) ->
  filter (fun p => proc_alive p = true) l = [].
Proof.
  induction l as [|a l IH]; intros H; [reflexivity|].
  rewrite filter_cons_False.
  - apply IH. intros k q Hk. exact (H (S k) q Hk).
  - rewrite (H 0 a eq_refl). discriminate.
Qed.

Lemma at_most_one_alive (l : list proc) :
  (forall j k p q, l !! j = Some p -> l !! k = Some q ->
                   proc_alive p = true -> proc_alive q = true -> j = k) ->
  length (filter (fun p => proc_alive p = true) l) <= 1.
Proof.
  induction l as [|a l IH]; intros H; [cbn; lia|].
  rewrite filter_cons. destruct (decide (proc_alive a = true)) as [Ha|Ha].
  - rewrite none_alive; [reflexivity|].
    intros k q Hk. destruct (proc_alive q) eqn:Hq; [|reflexivity].
    specialize (H 0 (S k) a q eq_refl Hk Ha Hq). discriminate.
  - apply IH. intros j k p q Hj Hk Hp Hq.
    specialize (H (S j) (S k) p q Hj Hk Hp Hq). lia.
Qed.

Lemma reachable_init : reachable init.
Proof. exists []. constructor. Qed.

Lemma reachable_step s l s' : reachable s -> sys_step s l s' -> reachable s'.
Proof. intros [h H] Hs. exists (log_after h s l). econstructor; eauto. Qed.

(** C2. In every state the session reaches, through whatever order of
    [start], [pause_toggle], [clear], drain turns and worker steps, at most
    one process is alive, and it is the one the handle names; [start] creates
    nothing while the handle is alive, and when [clear] returns no process is
    alive and the handle is released. *)
Theorem at_most_one_worker (s : state) :
  reachable s ->
  live_count s <= 1 /\
  (forall j p, procs s !! j = Some p -> proc_alive p = true -> process s = Some j) /\
  (handle_alive s = true -> forall spawn, start spawn s = (Ok tt, s)) /\
  (forall fuel now s',
     clear fuel now s = (Ok tt, s') -> live_count s' = 0 /\ process s' = None).
Proof.
  intros [h Ht]. pose proof (inv_traced h s Ht) as HI.
  split; [|split; [|split]].
  - apply at_most_one_alive. intros j k p q Hj Hk Hp Hq.
    pose proof (inv_only_handle _ _ HI j p Hj Hp) as E1.
    pose proof (inv_only_handle _ _ HI k q Hk Hq) as E2. congruence.
  - exact (inv_only_handle _ _ HI).
  - intros Ha spawn. now apply start_alive.
  - intros fuel now s' H. destruct (clear_spec fuel now s) as [Hc _].
    destruct (Hc _ _ H) as [_ E]. rewrite (E eq_refl).
    split; [|reflexivity]. unfold live_count.
    rewrite none_alive; [reflexivity|]. exact (cleared_all_dead h s HI).
Qed.

(** ** Step numbers in the buffer *)

Lemma step_to_wire d : step (to_wire d) = step d.
Proof. unfold to_wire. now destruct (timestamp d). Qed.

Lemma pid_to_wire d : pid (to_wire d) = pid d.
Proof. unfold to_wire. now destruct (timestamp d). Qed.

Lemma steps_upto_app n m :
  steps_upto (n + m)
  = steps_upto n ++ map (fun k => wrap32 (Z.of_nat k)) (seq (S n) m).
Proof. unfold steps_upto. now rewrite seq_app, map_app. Qed.

Lemma steps_upto_small n :
  (Z.of_nat n < 2 ^ 31)%Z -> steps_upto n = map Z.of_nat (seq 1 n).
Proof.
  intros Hn. unfold steps_upto. apply map_ext_in. intros k Hk.
  apply in_seq in Hk. apply wrap32_small.
  change (2 ^ 31)%Z with 2147483648%Z in *. lia.
Qed.

Lemma buffer_steps h s :
  inv h s -> map step (local_data s) = steps_upto (length (local_data s)).
Proof.
  intros HI. pose proof (inv_steps _ _ HI) as Hst.
  rewrite <- (inv_log _ _ HI) in Hst.
  rewrite map_app, length_app, steps_upto_app in Hst.
  apply app_inj_1 in Hst as [Hst _].
  - rewrite length_map in Hst. rewrite <- Hst.
    rewrite map_map. apply map_ext. intros d. now rewrite step_to_wire.
  - now rewrite !length_map, length_steps_upto.
Qed.

(** C5, as the code has it.  In every state the session reaches, the step
    numbers in the buffer are those of the samples built since the last
    clear, in order: the C-int images of 1, 2, 3, ...  As long as the buffer
    holds fewer than 2^31 samples they are 1, 2, 3, ... themselves. *)
Theorem buffer_steps_in_order (s : state) :
  reachable s ->
  map step (local_data s) = steps_upto (length (local_data s)) /\
  ((Z.of_nat (length (local_data s)) < 2 ^ 31)%Z ->
   map step (local_data s) = map Z.of_nat (seq 1 (length (local_data s)))).
Proof.
  intros [h Ht]. pose proof (inv_traced h s Ht) as HI.
  pose proof (buffer_steps h s HI) as E.
  split; [exact E|]. intros Hn. rewrite E. now apply steps_upto_small.
Qed.

(** *** A run long enough for the counter to wrap *)

Lemma work_n_S_snd n now i s :
  snd (work_n (S n) now i s) = snd (work_n n now i (snd (work now i s))).
Proof.
  cbn [work_n]. destruct (work now i s) as [e s1]. cbn [snd].
  now destruct (work_n n now i s1).
Qed.

Lemma reachable_work_n now i n : forall s,
  valid now = true -> reachable s -> reachable (snd (work_n n now i s)).
Proof.
  induction n as [|n IH]; intros s Hv Hr; [exact Hr|].
  rewrite work_n_S_snd. apply IH; [exact Hv|].
  eapply reachable_step; [exact Hr|]. now apply step_work.
Qed.

Lemma valid_noon : valid noon = true.
Proof. reflexivity. Qed.

Lemma appended_on_wire t st me :
  valid t = true -> appended (sample_on_wire t st me) = [sample_in_buffer t st me].
Proof.
  intros Hv. unfold appended, parsed, sample_on_wire. cbn [timestamp].
  now rewrite fromisoformat_isoformat.
Qed.

Lemma reachable_after_emissions n : reachable (after_emissions n).
Proof.
  induction n as [|n IH].
  - eapply reachable_step; [exact reachable_init|].
    apply (step_start (Some 100%Z) init (Ok tt)). reflexivity.
  - pose proof (reachable_work_n noon 0 6 _ valid_noon IH) as Hw.
    set (c := wrap32 (wrap32 (Z.of_nat n) + 1)) in *.
    assert (snd (work_n 6 noon 0 (after_emissions n))
            = mkState [sample_on_wire noon c 100] false false c
                      (local_data (after_emissions n)) (Some 0) true
                      [Alive 100 AtStop]) as E by reflexivity.
    rewrite E in Hw.
    eapply reachable_step in Hw.
    2: { apply step_drain; [reflexivity|reflexivity|].
         apply drain_body_cons. reflexivity. }
    rewrite appended_on_wire in Hw by exact valid_noon.
    assert (c = wrap32 (Z.of_nat (S n))) as Hc.
    { unfold c. rewrite wrap32_wrap. f_equal. lia. }
    assert (after_emissions (S n)
            = mkState [] false false c
                (local_data (after_emissions n) ++ [sample_in_buffer noon c 100])
                (Some 0) true [Alive 100 AtStop]) as ->.
    { unfold after_emissions. cbn [local_data].
      rewrite seq_S, map_app. cbn [map]. change (1 + n) with (S n).
      now rewrite <- Hc. }
    exact Hw.
Qed.

Lemma steps_after_emissions n :
  map step (local_data (after_emissions n)) = steps_upto n.
Proof.
  unfold after_emissions, steps_upto. cbn [local_data].
  rewrite map_map. reflexivity.
Qed.

(** C5 as stated fails once the counter has run through the C [int]: after
    2^31 emissions of one uninterrupted run the buffer ends with the steps
    2147483647 and -2147483648, so its steps are not 1, 2, 3, ... *)
Lemma counter_wraps_counterexample :
  exists s : state,
    reachable s /\
    Z.of_nat (length (local_data s)) = 2147483648%Z /\
    (exists front, map step (local_data s)
                   = front ++ [2147483647; -2147483648]%Z) /\
    map step (local_data s) <> map Z.of_nat (seq 1 (length (local_data s))).
Proof.
  assert (forall m : nat, Z.of_nat m = 2147483646%Z ->
            map step (local_data (after_emissions (S (S m))))
            = steps_upto m ++ [2147483647; -2147483648]%Z) as Hsteps.
  { intros m Hm. rewrite steps_after_emissions, !steps_upto_S.
    rewrite <- app_assoc. f_equal. cbn [app].
    rewrite !Nat2Z.inj_succ, Hm. reflexivity. }
  assert (exists m : nat, Z.of_nat m = 2147483646%Z) as [m Hm]
    by (exists (Z.to_nat 2147483646); apply Z2Nat.id; lia).
  exists (after_emissions (S (S m))).
  assert (length (local_data (after_emissions (S (S m)))) = S (S m)) as Hl
    by (unfold after_emissions; cbn [local_data];
        now rewrite length_map, length_seq).
  split; [apply reachable_after_emissions|].
  split; [rewrite Hl, !Nat2Z.inj_succ, Hm; reflexivity|].
  split; [eexists; now apply Hsteps|].
  rewrite (Hsteps m Hm). intros E.
  rewrite Hl, !seq_S, !map_app in E. cbn [map] in E.
  rewrite <- app_assoc in E. cbn [app] in E.
  apply app_inj_2 in E; [|reflexivity].
  destruct E as [_ E]. injection E as E1 E2. lia.
Qed.

(** ** What [start] leaves alone *)

Lemma first_emission now p q c :
  fst (wrun 5 now false false (mkW (Alive p AtStop) q c))
  = [EvCheck; EvCheck; EvIncr (wrap32 (c + 1));
     EvCreate (sample_on_wire now (wrap32 (c + 1)) p);
     EvPut (sample_on_wire now (wrap32 (c + 1)) p)].
Proof. reflexivity. Qed.

(** C10. Whatever its outcome, [start] leaves the counter, the buffer and
    the queue as they were.  So the first sample of the run it starts
    carries the step after the counter it found, which is 1 because [clear]
    has set the counter to 0, not because [start] resets anything. *)
Theorem start_frame (s : state) (spawn : option Z) (r : res unit) (s' : state) :
  start spawn s = (r, s') ->
  counter s' = counter s /\ local_data s' = local_data s /\
  data_queue s' = data_queue s /\
  (forall p now, spawn = Some p -> handle_alive s = false ->
     fst (work_n 5 now (length (procs s)) s')
     = [EvCheck; EvCheck; EvIncr (wrap32 (counter s + 1));
        EvCreate (sample_on_wire now (wrap32 (counter s + 1)) p);
        EvPut (sample_on_wire now (wrap32 (counter s + 1)) p)]) /\
  (forall fuel now s0, clear fuel now s0 = (Ok tt, s) ->
     counter s' = 0%Z /\ wrap32 (counter s' + 1) = 1%Z).
Proof.
  intros H. destruct (start_keeps_data spawn s r s' H) as (Hc & Hl & Hq).
  repeat split; try assumption.
  - intros p now -> Ha. rewrite start_spawned in H by exact Ha.
    injection H as <- <-.
    rewrite (work_n_view 5 now _ _ (Alive p AtStop))
      by (cbn [procs]; now apply list_lookup_middle).
    cbn [fst stop_event pause_event data_queue counter].
    apply first_emission.
  - rewrite Hc. destruct (clear_spec fuel now s0) as [Hcl _].
    destruct (Hcl _ _ H0) as [_ E]. now rewrite (E eq_refl).
  - rewrite Hc. destruct (clear_spec fuel now s0) as [Hcl _].
    destruct (Hcl _ _ H0) as [_ E]. now rewrite (E eq_refl).
Qed.

(** ** Samples from the worker to the buffer *)

Lemma omap_parsed_wire (q : list Sample) :
  Forall wire_ok q ->
  exists q', omap parsed q = q' /\ map to_wire q' = q /\ Forall buffered_ok q'.
Proof.
  induction 1 as [|d q Hd _ (q' & Hq' & Hback & Hok)].
  - exists []. now repeat split.
  - destruct (parsed_wire_ok d Hd) as (t & Hv & Hp & Hb).
    exists (with_timestamp (TsDatetime t) d :: q'). cbn [omap list_omap].
    rewrite Hp. cbn [map]. split; [now f_equal|]. split; [now f_equal|].
    constructor; [|exact Hok]. exists t. now split.
Qed.

Lemma fields_to_wire d : buffered_ok d -> fields (to_wire d) = fields d.
Proof.
  intros (t & Hv & Ht). unfold fields, instant, to_wire. rewrite Ht.
  cbn [timestamp with_timestamp step pid].
  now rewrite fromisoformat_isoformat.
Qed.

Lemma map_fields_to_wire l :
  Forall buffered_ok l -> map fields (map to_wire l) = map fields l.
Proof.
  induction 1 as [|d l Hd _ IH]; cbn [map]; [reflexivity|].
  now rewrite fields_to_wire, IH.
Qed.

Lemma held_fields h s : inv h s -> map fields (held s) = map fields h.
Proof.
  intros HI. unfold held.
  pose proof (inv_log _ _ HI) as Hlog. rewrite <- Hlog.
  rewrite !map_app. f_equal.
  symmetry. apply map_fields_to_wire. exact (inv_buffer _ _ HI).
Qed.

Lemma wire_ok_stamped d : wire_ok d -> stamped d.
Proof.
  intros (t & Hv & Ht). exists t. split; [exact Hv|].
  unfold instant. now rewrite Ht, fromisoformat_isoformat.
Qed.

Lemma buffered_ok_stamped d : buffered_ok d -> stamped d.
Proof.
  intros (t & Hv & Ht). exists t. split; [exact Hv|].
  unfold instant. now rewrite Ht.
Qed.

Lemma held_stamped h s : inv h s -> Forall stamped (held s).
Proof.
  intros HI. unfold held. apply Forall_app. split.
  - eapply Forall_impl; [exact (inv_buffer _ _ HI)|].
    exact buffered_ok_stamped.
  - pose proof (inv_wire _ _ HI) as Hw. rewrite <- (inv_log _ _ HI) in Hw.
    apply Forall_app in Hw as [_ Hw].
    eapply Forall_impl; [exact Hw|]. exact wire_ok_stamped.
Qed.

(** C6. A sample is a timestamp (an instant), a step and a producer id.
    In every state the session reaches, the samples it holds (in the buffer,
    on the queue, in the worker's hand) have, one by one and in order, the
    fields of the samples the worker has built since the last clear: nothing
    but a worker's build step adds to that log.  Every step of the system
    other than [clear] leaves the fields of all samples held as they were,
    in the same order, new ones coming behind them; the drain, which moves a
    sample from the queue into the buffer and reads its timestamp text, is
    such a step.  [clear] evicts them all.  Every sample held has a definite,
    valid instant, and the buffer only grows until [clear] empties it. *)
Theorem samples_kept_as_built (h : list Sample) (s : state) (l : label) (s' : state) :
  traced h s -> sys_step s l s' ->
  map fields (held s') = map fields (log_after h s l) /\
  Forall stamped (held s') /\
  (log_after h s l = h \/
   (exists now, l = LClear now /\ log_after h s l = []) \/
   (exists i now d, l = LWork i now /\ fst (work now i s) = EvCreate d /\
                    log_after h s l = h ++ [d])) /\
  ((exists now, l = LClear now /\ held s' = []) \/
   (exists new, map fields (held s') = map fields (held s) ++ new)) /\
  ((exists now, l = LClear now /\ local_data s' = []) \/
   (exists new, local_data s' = local_data s ++ new)) /\
  map to_wire (local_data s') ++ data_queue s' ++ pending s' = log_after h s l.
Proof.
  intros Ht Hstep. pose proof (inv_traced h s Ht) as HI.
  pose proof (inv_step h s l s' HI Hstep) as HI'.
  assert (log_after h s l = h \/
          (exists now, l = LClear now /\ log_after h s l = []) \/
          (exists i now d, l = LWork i now /\ fst (work now i s) = EvCreate d /\
                           log_after h s l = h ++ [d])) as Hlog.
  { destruct l as [spawn| |now| |i now]; cbn [log_after]; auto.
    - right. left. now exists now.
    - destruct (fst (work now i s)) eqn:E; auto.
      right. right. now exists i, now, d. }
  split; [exact (held_fields _ _ HI')|].
  split; [exact (held_stamped _ _ HI')|].
  split; [exact Hlog|].
  split; [|split; [|exact (inv_log _ _ HI')]].
  - rewrite (held_fields _ _ HI'), (held_fields _ _ HI).
    destruct Hlog as [-> | [(now & -> & E) | (i & now & d & -> & _ & ->)]].
    + right. exists []. now rewrite app_nil_r.
    + left. exists now. split; [reflexivity|].
      rewrite E in HI'. pose proof (held_fields _ _ HI') as Hf.
      cbn [map] in Hf. now apply map_eq_nil in Hf.
    + right. exists [fields d]. now rewrite map_app.
  - destruct Hstep as
      [spawn s r s' H | s s' H | fuel now s s' Hv H | s s' Hr Hq H | i now s Hv].
    + right. exists []. rewrite app_nil_r.
      now destruct (start_keeps_data spawn s r s' H) as (_ & -> & _).
    + right. exists []. rewrite app_nil_r.
      rewrite pause_toggle_eq in H. now injection H as <-.
    + left. exists now. split; [reflexivity|].
      destruct (clear_spec fuel now s) as [Hc _].
      destruct (Hc _ _ H) as [_ E]. now rewrite (E eq_refl).
    + right. unfold queue_empty in Hq.
      destruct (data_queue s) as [|d q] eqn:Q; [discriminate|].
      rewrite (drain_body_cons s d q Q) in H. injection H as <-.
      now exists (appended d).
    + right. exists []. rewrite app_nil_r. unfold work.
      destruct (procs s !! i); [|reflexivity].
      now destruct (wstep now (stop_event s) (pause_event s) _).
Qed.

(** ** The drain *)

Lemma reachable_drain_loop fuel : forall s s',
  reachable s -> running s = true ->
  while fuel (fun s => negb (queue_empty s)) drain_body s = (Ok tt, s') ->
  reachable s'.
Proof.
  induction fuel as [|fuel IH]; intros s s' Hreach Hr H; cbn [while] in H;
    destruct (data_queue s) as [|d q] eqn:Q;
    rewrite ?(queue_empty_nil s Q), ?(queue_empty_cons s d q Q) in H;
    cbn [negb] in H.
  - now injection H as <-.
  - discriminate.
  - now injection H as <-.
  - rewrite (bind_ok _ _ _ _ _ (drain_body_cons s d q Q)) in H.
    eapply IH; [| |exact H].
    + eapply reachable_step; [exact Hreach|].
      apply step_drain; [exact Hr|now apply (queue_empty_cons s d q)|].
      now apply drain_body_cons.
    + exact Hr.
Qed.

(** C9. [drain] does nothing unless the session is running.  It never
    raises.  When the session is running and the fuel covers the queue, it
    returns with the queue empty and the buffer extended by one sample for
    each queue entry whose timestamp parses, in queue order.  In a state the
    session reaches every entry parses: nothing is dropped, and afterwards the
    buffer holds, in the order the worker built them, all samples built
    since the last clear but the one the worker may still have in hand. *)
Theorem drain_spec (s : state) (fuel : nat) :
  (running s = false -> drain fuel s = (Ok tt, s)) /\
  (forall r s', drain fuel s = (r, s') -> forall e, r <> Raise e) /\
  (data_queue s = [] -> get_nowait s = (Raise Empty, s) /\
                        drain_body s = (Ok tt, s)) /\
  (running s = true -> length (data_queue s) <= fuel ->
   drain fuel s
   = (Ok tt, with_local (local_data s ++ omap parsed (data_queue s))
                        (with_queue [] s))) /\
  (forall h, traced h s -> running s = true ->
   length (data_queue s) <= fuel ->
   exists s',
     drain fuel s = (Ok tt, s') /\ data_queue s' = [] /\
     length (local_data s')
     = length (local_data s) + length (data_queue s) /\
     map to_wire (local_data s') ++ pending s' = h /\
     reachable s').
Proof.
  split; [|split; [|split; [|split]]].
  - intros Hr. now apply drain_idle.
  - intros r s' H e. destruct (running s) eqn:Hr.
    + rewrite drain_running in H by exact Hr.
      destruct (drain_loop_spec fuel s) as [_ Hno]. exact (Hno r s' H e).
    + rewrite drain_idle in H by exact Hr. injection H as <- <-. discriminate.
  - intros Q. split; [|now apply drain_body_nil].
    unfold get_nowait. now rewrite Q.
  - intros Hr Hf. rewrite drain_running by exact Hr.
    destruct (drain_loop_spec fuel s) as [Hd _]. now apply Hd.
  - intros h Ht Hr Hf. pose proof (inv_traced h s Ht) as HI.
    rewrite drain_running by exact Hr.
    destruct (drain_loop_spec fuel s) as [Hd _]. rewrite (Hd Hf).
    eexists. split; [reflexivity|].
    pose proof (inv_log _ _ HI) as Hlog.
    pose proof (inv_wire _ _ HI) as Hwire. rewrite <- Hlog in Hwire.
    apply Forall_app in Hwire as [_ Hwire].
    apply Forall_app in Hwire as [Hwire _].
    destruct (omap_parsed_wire _ Hwire) as (q' & Hq' & Hback & Hok).
    cbn [data_queue local_data with_local with_queue].
    change (pending (with_local (local_data s ++ omap parsed (data_queue s))
                                (with_queue [] s))) with (pending s).
    rewrite Hq'. split; [reflexivity|]. split.
    { rewrite length_app. f_equal. now rewrite <- Hback, length_map. }
    split.
    { rewrite map_app, Hback, <- app_assoc. exact Hlog. }
    rewrite <- Hq'.
    apply (reachable_drain_loop fuel s); [now exists h|exact Hr|now apply Hd].
Qed.

(** ** The script run *)

Lemma preserves_bind {A B} (m : M A) (f : A -> M B) :
  preserves m -> (forall a, preserves (f a)) -> preserves (m ≫= f).
Proof.
  intros Hm Hf s r s' Hr H Hne. unfold mbind, M_bind in H.
  destruct (m s) as [[a|e|] s1] eqn:E.
  - apply (Hf a s1 r s'); [|exact H|exact Hne].
    apply (Hm s (Ok a) s1); [exact Hr|exact E|discriminate].
  - injection H as <- <-.
    apply (Hm s (Raise e) s1); [exact Hr|exact E|discriminate].
  - injection H as <- <-. now destruct Hne.
Qed.

Lemma preserves_get : preserves get.
Proof. intros s r s' Hr [= <- <-] _. exact Hr. Qed.

Lemma preserves_ret {A} (a : A) : preserves (mret a).
Proof. intros s r s' Hr [= <- <-] _. exact Hr. Qed.

Lemma preserves_start spawn : preserves (start spawn).
Proof.
  intros s r s' Hr H _. eapply reachable_step; [exact Hr|].
  eapply step_start; exact H.
Qed.

Lemma preserves_pause_toggle : preserves pause_toggle.
Proof.
  intros s r s' Hr H _. eapply reachable_step; [exact Hr|].
  apply step_pause. rewrite pause_toggle_eq in H |- *. now injection H as <- <-.
Qed.

Lemma preserves_clear fuel now : valid now = true -> preserves (clear fuel now).
Proof.
  intros Hv s r s' Hr H Hne. destruct (clear_spec fuel now s) as [Hc _].
  destruct (Hc _ _ H) as [Hno _]. destruct r as [[]|e|].
  - eapply reachable_step; [exact Hr|]. eapply step_clear; eauto.
  - now destruct (Hno e).
  - now destruct Hne.
Qed.

Lemma preserves_drain fuel : preserves (drain fuel).
Proof.
  intros s r s' Hr H Hne. destruct (running s) eqn:Hrun.
  - rewrite drain_running in H by exact Hrun.
    destruct (drain_loop_spec fuel s) as [_ Hno]. destruct r as [[]|e|].
    + eapply reachable_drain_loop; eauto.
    + now destruct (Hno _ _ H e).
    + now destruct Hne.
  - rewrite drain_idle in H by exact Hrun. now injection H as <- <-.
Qed.

(** A run of the script is made of steps of the system: whatever holds in
    every reachable state holds after every script run. *)
Lemma preserves_main fuel now spawn click :
  valid now = true -> preserves (main fuel now spawn click).
Proof.
  intros Hv. unfold main.
  apply preserves_bind; [apply preserves_get|]. intros s1.
  apply preserves_bind.
  { destruct (st_button Start (start_disabled s1) click);
      [apply preserves_start|apply preserves_ret]. }
  intros _. apply preserves_bind; [apply preserves_get|]. intros s2.
  apply preserves_bind.
  { destruct (st_button Pause (pause_disabled s2) click);
      [apply preserves_pause_toggle|apply preserves_ret]. }
  intros _. apply preserves_bind; [apply preserves_get|]. intros s3.
  apply preserves_bind.
  { destruct (st_button Clear (clear_disabled s3) click);
      [now apply preserves_clear|apply preserves_ret]. }
  intros _. apply preserves_drain.
Qed.

(** ** Concrete runs *)

Lemma reachable_started : reachable started.
Proof.
  eapply reachable_step; [exact reachable_init|].
  apply (step_start (Some 100%Z) init (Ok tt)). reflexivity.
Qed.

Lemma reachable_race_state : reachable race_state.
Proof.
  pose proof (reachable_work_n noon 0 2 _ valid_noon reachable_started) as H.
  eapply reachable_step; [exact H|].
  apply step_pause. reflexivity.
Qed.

Lemma reachable_one_queued : reachable one_queued.
Proof.
  exact (reachable_work_n noon 0 5 _ valid_noon reachable_started).
Qed.

(** C3 as stated fails: here the session is reached with [pause_event] set
    and the worker past its pause check; its next three steps increment the
    counter and put a sample on the queue, the flag being set all the while.
    And a worker that the flag finds in the sleep after an emission sleeps
    that interval of 2000 ms, not the quantum of 100 ms. *)
Lemma pause_race_counterexample :
  reachable race_state /\
  pause_event race_state = true /\ stop_event race_state = false /\
  work_n 3 noon 0 race_state
  = ([EvIncr 1; EvCreate (sample_on_wire noon 1 100);
      EvPut (sample_on_wire noon 1 100)],
     mkState [sample_on_wire noon 1 100] false true 1%Z [] (Some 0) true
             [Alive 100 AtSleepWork]) /\
  counter (snd (work noon 0 race_state)) <> counter race_state /\
  pause_event (snd (work noon 0 race_state)) = true /\
  reachable (with_pause true one_queued) /\
  fst (work noon 0 (with_pause true one_queued)) = EvSleep 2000.
Proof.
  split; [exact reachable_race_state|].
  repeat split; try reflexivity.
  - cbn. discriminate.
  - eapply reachable_step; [exact reachable_one_queued|].
    apply step_pause. reflexivity.
Qed.


(** ** The CSV text *)

Lemma strip_prefix_append p rest :
  strip_prefix p (String.append p rest) = Some rest.
Proof.
  induction p as [|c p IH]; cbn [strip_prefix String.append]; [reflexivity|].
  now rewrite Ascii.eqb_refl.
Qed.

Lemma length_append (a b : string) :
  String.length (String.append a b) = String.length a + String.length b.
Proof.
  induction a as [|c a IH]; cbn [String.append String.length]; [reflexivity|].
  now rewrite IH.
Qed.

Lemma isoformat_head t : exists c r, isoformat t = String c r.
Proof. unfold isoformat. cbn [zfill String.append]. eauto. Qed.

Lemma read_row_csv_row d rest :
  buffered_ok d ->
  read_row (String.append (csv_row d) rest) = Some (d, rest).
Proof.
  intros (t & Hv & Ht). unfold read_row, csv_row. rewrite Ht.
  cbn [csv_timestamp].
  repeat (rewrite append_assoc; cbn [String.append]).
  rewrite read_isoformat_isoformat by (exact Hv || (cbn; discriminate)).
  cbn [mbind option_bind]. rewrite expect_here. cbn [mbind option_bind].
  rewrite read_int_dec_of_Z by reflexivity.
  cbn [mbind option_bind]. rewrite expect_here. cbn [mbind option_bind].
  rewrite read_int_dec_of_Z by reflexivity.
  cbn [mbind option_bind]. rewrite expect_here. cbn [mbind option_bind].
  destruct d as [ts st p]. cbn in *. now subst ts.
Qed.

Lemma csv_row_head d rest :
  buffered_ok d -> exists c r, String.append (csv_row d) rest = String c r.
Proof.
  intros (t & _ & Ht). unfold csv_row. rewrite Ht. cbn [csv_timestamp].
  destruct (isoformat_head t) as (c & r & ->). cbn [String.append]. eauto.
Qed.

Lemma length_csv_rows l :
  Forall buffered_ok l -> length l <= String.length (csv_rows l).
Proof.
  induction 1 as [|d l Hd _ IH]; cbn [csv_rows length]; [lia|].
  rewrite length_append.
  destruct (csv_row_head d EmptyString Hd) as (c & r & E).
  rewrite append_nil_r in E. rewrite E. cbn [String.length]. lia.
Qed.

Lemma read_rows_csv_rows l : forall fuel,
  Forall buffered_ok l -> length l <= fuel ->
  read_rows fuel (csv_rows l) = Some l.
Proof.
  induction l as [|d l IH]; intros fuel Hok Hf.
  - now destruct fuel.
  - apply Forall_cons in Hok as [Hd Hl]. cbn [csv_rows].
    destruct (csv_row_head d (csv_rows l) Hd) as (c & r & E).
    destruct fuel as [|fuel]; [cbn in Hf; lia|].
    cbn [read_rows]. rewrite E. rewrite <- E.
    rewrite read_row_csv_row by exact Hd. cbn [mbind option_bind].
    rewrite IH by (exact Hl || (cbn in Hf; lia)). reflexivity.
Qed.

Lemma reachable_buffered_ok s : reachable s -> Forall buffered_ok (local_data s).
Proof. intros [h Ht]. exact (inv_buffer _ _ (inv_traced h s Ht)). Qed.

(** C7. Reading back the CSV text written for a buffer gives the buffer
    again, sample by sample and in order, whenever the buffer holds samples
    as the drain stores them (a valid [datetime], an integer step, an integer
    pid).  Every buffer the session reaches is such a buffer, and the text
    the download offers for it is that text. *)
Theorem csv_round_trip (b : list Sample) :
  (Forall buffered_ok b -> parse_csv (to_csv b) = Some b) /\
  (forall s, reachable s -> local_data s = b ->
     parse_csv (to_csv b) = Some b /\
     (b <> [] -> download_csv s = Some (to_csv b))).
Proof.
  assert (Forall buffered_ok b -> parse_csv (to_csv b) = Some b) as Hrt.
  { intros Hok. unfold parse_csv, to_csv. rewrite strip_prefix_append.
    cbn [mbind option_bind].
    apply read_rows_csv_rows; [exact Hok|now apply length_csv_rows]. }
  split; [exact Hrt|].
  intros s Hr E. split.
  - apply Hrt. rewrite <- E. now apply reachable_buffered_ok.
  - intros Hne. unfold download_csv. rewrite E.
    destruct b; [contradiction|reflexivity].
Qed.


(** ** The theorems at concrete inputs *)

Lemma clear_resets_session_witness :
  exists s', clear 8 noon one_queued = (Ok tt, s') /\ counter s' = 0%Z /\
             data_queue s' = [] /\ local_data s' = [] /\ running s' = false.
Proof.
  destruct (clear_resets_session one_queued 8 noon eq_refl)
    as (s' & H1 & H2 & H3 & H4 & H5 & _).
  - cbn. lia.
  - exists s'. repeat split; assumption.
Defined.

Lemma at_most_one_worker_witness : live_count started <= 1.
Proof.
  refine (proj1 (at_most_one_worker started _)).
  exists []. apply (traced_step [] init (LStart (Some 100%Z)) started).
  - exact traced_init.
  - apply (step_start (Some 100%Z) init (Ok tt)). reflexivity.
Defined.

Lemma pause_holds_worker_witness :
  exists evs s',
    work_n 10 noon 0 race_state = (evs, s') /\ is_alive 0 s' = true /\
    count_ev is_incr evs <= 1 /\ count_ev is_put evs <= 1.
Proof.
  destruct (proj1 (pause_holds_worker race_state 0 100 AtIncr noon
                     eq_refl eq_refl) eq_refl 10)
    as (evs & s' & H1 & H2 & H3 & H4 & _).
  exists evs, s'. repeat split; assumption.
Defined.

Lemma stop_ends_worker_witness :
  exists evs s',
    work_n 2 noon 0 (with_stop true one_queued) = (evs, s') /\
    last evs = Some EvExit /\ procs s' !! 0 = Some (Exited 100).
Proof.
  destruct (proj1 (stop_ends_worker (with_stop true one_queued) 0 100
                     AtSleepWork noon eq_refl) eq_refl)
    as (evs & s' & H1 & H2 & H3 & _).
  exists evs, s'. repeat split; assumption.
Defined.

Lemma buffer_steps_in_order_witness :
  map step (local_data (after_emissions 2)) = [1; 2]%Z.
Proof.
  refine (proj2 (buffer_steps_in_order (after_emissions 2) _) _).
  - apply reachable_after_emissions.
  - cbn. lia.
Defined.

Lemma samples_kept_as_built_witness :
  map fields (held (mkState [] false false 1%Z [sample_in_buffer noon 1 100]
                            (Some 0) true [Alive 100 AtSleepWork]))
  = map fields (held one_queued).
Proof.
  destruct reachable_one_queued as [h Ht].
  destruct (samples_kept_as_built h one_queued LDrainTurn
              (mkState [] false false 1%Z [sample_in_buffer noon 1 100]
                       (Some 0) true [Alive 100 AtSleepWork]) Ht)
    as (_ & _ & _ & [(now & E & _) | (new & Hnew)] & _).
  - apply step_drain; reflexivity.
  - discriminate E.
  - assert (length new = 0) as Hl.
    { apply (f_equal (@length _)) in Hnew.
      rewrite length_app, !length_map in Hnew. cbn in Hnew. lia. }
    destruct new; [|discriminate Hl]. now rewrite app_nil_r in Hnew.
Defined.

Lemma start_spec_witness :
  exists s', start (Some 100%Z) init = (Ok tt, s') /\ running s' = true /\
             live_count s' = 1.
Proof.
  destruct (proj1 (proj2 (start_spec init)) eq_refl 100%Z)
    as (s' & H1 & _ & _ & _ & _ & H2 & _ & H3 & _).
  exists s'. repeat split; assumption.
Defined.

Lemma drain_spec_witness :
  drain 1 one_queued
  = (Ok tt, with_local (local_data one_queued
                        ++ omap parsed (data_queue one_queued))
                       (with_queue [] one_queued)).
Proof.
  refine (proj1 (proj2 (proj2 (proj2 (drain_spec one_queued 1)))) eq_refl _).
  cbn. lia.
Defined.

Lemma start_frame_witness :
  counter (snd (start (Some 200%Z) leftover)) = 5%Z /\
  local_data (snd (start (Some 200%Z) leftover)) = [sample_in_buffer noon 4 100] /\
  data_queue (snd (start (Some 200%Z) leftover))
  = [sample_on_wire noon_plus_2s 5 100] /\
  fst (work_n 5 noon 0 (snd (start (Some 200%Z) leftover)))
  = [EvCheck; EvCheck; EvIncr 6; EvCreate (sample_on_wire noon 6 200);
     EvPut (sample_on_wire noon 6 200)].
Proof.
  destruct (start_frame leftover (Some 200%Z) (Ok tt)
              (snd (start (Some 200%Z) leftover)) eq_refl)
    as (H1 & H2 & H3 & H4 & _).
  split; [exact H1|]. split; [exact H2|]. split; [exact H3|].
  exact (H4 200%Z noon eq_refl eq_refl).
Defined.

Lemma csv_round_trip_witness :
  parse_csv (to_csv [sample_in_buffer noon 1 100;
                     sample_in_buffer noon_plus_2s 2 100])
  = Some [sample_in_buffer noon 1 100; sample_in_buffer noon_plus_2s 2 100].
Proof.
  refine (proj1 (csv_round_trip _) _).
  repeat constructor.
  - exists noon. split; reflexivity.
  - exists noon_plus_2s. split; reflexivity.
Defined.

(** * Further properties of the code *)

(** ** The worker loop *)

(** X1. A step of a worker process leaves both events, the buffer, the
    handle, [running] and every other process as they are; the queue is
    either untouched or one sample longer at its tail, by a put; the counter
    is either untouched or one more (as a C [int]), by the locked increment. *)
Theorem worker_step_frame (now : datetime) (i : nat) (s : state) :
  stop_event (snd (work now i s)) = stop_event s /\
  pause_event (snd (work now i s)) = pause_event s /\
  local_data (snd (work now i s)) = local_data s /\
  process (snd (work now i s)) = process s /\
  running (snd (work now i s)) = running s /\
  length (procs (snd (work now i s))) = length (procs s) /\
  (forall j, j <> i -> procs (snd (work now i s)) !! j = procs s !! j) /\
  (data_queue (snd (work now i s)) = data_queue s \/
   exists d, fst (work now i s) = EvPut d /\
             data_queue (snd (work now i s)) = data_queue s ++ [d]) /\
  (counter (snd (work now i s)) = counter s \/
   (fst (work now i s) = EvIncr (counter (snd (work now i s))) /\
    counter (snd (work now i s)) = wrap32 (counter s + 1))).
Proof.
  destruct (procs s !! i) as [p|] eqn:Hp.
  - rewrite (work_view now i s p Hp). cbn [fst snd].
    assert (forall w, length (procs (install i w s)) = length (procs s)) as Hlen
      by (intros w; cbn; apply length_insert).
    assert (forall w j, j <> i -> procs (install i w s) !! j = procs s !! j)
      as Hother by (intros w j Hj; apply install_lookup_ne; auto).
    do 5 (split; [reflexivity|]).
    split; [apply Hlen|]. split; [apply Hother|].
    cbn [data_queue counter install set_proc with_procs with_counter with_queue].
    destruct p as [|me pc|me]; [| destruct pc |];
      cbn [wstep w_proc w_queue w_counter];
      try destruct (stop_event s); try destruct (pause_event s);
      cbn [fst snd w_queue w_counter];
      (split; [first [left; reflexivity | right; eexists; split; reflexivity]
              |first [left; reflexivity | right; split; reflexivity]]).
  - unfold work. rewrite Hp. cbn [fst snd].
    repeat (split; [reflexivity|]). split; now left.
Qed.






Lemma wrun_stays_alive now pause n : forall me pc q c,
  exists pc', w_proc (snd (wrun n now false pause (mkW (Alive me pc) q c)))
              = Alive me pc'.
Proof.
  induction n as [|n IH]; intros me pc q c; [now exists pc|].
  cbn [wrun].
  destruct pc; destruct pause; cbn [wstep w_proc w_queue w_counter];
    match goal with
    | |- context [wrun n now false ?b (mkW (Alive me ?pc1) ?q1 ?c1)] =>
        destruct (IH me pc1 q1 c1) as [pc' Hpc'];
        destruct (wrun n now false b (mkW (Alive me pc1) q1 c1))
    end; now exists pc'.
Qed.

(** X3. While [stop_event] is clear a worker never ends by itself: after
    any number of its steps the process is still alive, with the same pid. *)
Theorem worker_runs_until_stopped
  (s : state) (i : nat) (me : Z) (pc : wpc) (now : datetime) (n : nat) :
  procs s !! i = Some (Alive me pc) -> stop_event s = false ->
  exists pc', procs (snd (work_n n now i s)) !! i = Some (Alive me pc').
Proof.
  intros Hp Hstop. pose proof (lookup_lt_Some _ _ _ Hp) as Hi.
  rewrite (work_n_view n now i s _ Hp), Hstop. cbn [snd].
  rewrite install_lookup by exact Hi.
  destruct (wrun_stays_alive now (pause_event s) n me pc
              (data_queue s) (counter s)) as [pc' ->].
  now exists pc'.
Qed.

(** ** What holds in every state of the session *)

(** X4. In every state the session reaches, [running] says exactly whether
    the handle names a live process, and while it does [stop_event] is
    clear. *)
Theorem running_is_accurate (s : state) :
  reachable s ->
  running s = handle_alive s /\ (running s = true -> stop_event s = false).
Proof.
  intros [h Ht]. pose proof (inv_traced h s Ht) as HI.
  destruct (handle_alive s) eqn:Ha.
  - destruct (inv_alive_running _ _ HI Ha) as [Hr Hs]. now split.
  - destruct (running s) eqn:Hr.
    + rewrite (inv_running_alive _ _ HI Hr) in Ha. discriminate.
    + split; [reflexivity|discriminate].
Qed.

(** X5. In every state the session reaches, a session that is not running
    holds nothing: buffer and queue are empty, the counter is 0, no process
    is alive, the Clear button is disabled and no download is offered. *)
Theorem stopped_session_is_clean (s : state) :
  reachable s -> running s = false ->
  local_data s = [] /\ data_queue s = [] /\ counter s = 0%Z /\
  live_count s = 0 /\ clear_disabled s = true /\ download_csv s = None.
Proof.
  intros [h Ht] Hr. pose proof (inv_traced h s Ht) as HI.
  assert (handle_alive s = false) as Ha.
  { destruct (handle_alive s) eqn:Ha; [|reflexivity].
    destruct (inv_alive_running _ _ HI Ha) as [Hr' _]. congruence. }
  destruct (inv_idle_fields h s HI Ha) as (_ & Hl & Hq & Hc & _).
  repeat split; try assumption.
  - unfold live_count. rewrite none_alive; [reflexivity|].
    intros j p Hj. destruct (proc_alive p) eqn:Hal; [|reflexivity].
    pose proof (inv_only_handle _ _ HI j p Hj Hal) as E.
    rewrite (handle_alive_at s j p E Hj), Hal in Ha. discriminate.
  - unfold clear_disabled. now rewrite Hl, Hr.
  - unfold download_csv. now rewrite Hl.
Qed.

Lemma wrap32_idem z : wrap32 (wrap32 z) = wrap32 z.
Proof. pose proof (wrap32_wrap z 0) as H. now rewrite !Z.add_0_r in H. Qed.

(** X6. In every state the session reaches, the counter is the number of
    samples of the current run (in the buffer, on the queue, in the worker's
    hand, or numbered but not built yet), as a C [int]; so below 2^31 samples
    the buffer is never longer than the counter says. *)
Theorem counter_counts_samples (s : state) :
  reachable s ->
  counter s
  = wrap32 (Z.of_nat (length (local_data s) + length (data_queue s)
                      + length (pending s) + length (reserved s))) /\
  wrap32 (counter s) = counter s /\
  ((Z.of_nat (length (local_data s) + length (data_queue s)
              + length (pending s) + length (reserved s)) < 2 ^ 31)%Z ->
   (Z.of_nat (length (local_data s)) <= counter s)%Z).
Proof.
  intros [h Ht]. pose proof (inv_traced h s Ht) as HI.
  pose proof (inv_counter _ _ HI) as Hc.
  rewrite <- (inv_log _ _ HI) in Hc.
  rewrite !length_app, length_map in Hc.
  assert (counter s
          = wrap32 (Z.of_nat (length (local_data s) + length (data_queue s)
                              + length (pending s) + length (reserved s))))
    as Hc' by (rewrite Hc; f_equal; lia).
  split; [exact Hc'|]. split; [rewrite Hc'; apply wrap32_idem|].
  intros Hsmall. rewrite Hc', wrap32_small; [lia|].
  change (2 ^ 31)%Z with 2147483648%Z in *. lia.
Qed.

(** X7. In every state the session reaches, every sample in the buffer and
    on the queue carries the pid of the worker process that is alive. *)
Theorem samples_carry_worker_pid (s : state) (i : nat) (me : Z) (pc : wpc) :
  reachable s ->
  process s = Some i -> procs s !! i = Some (Alive me pc) ->
  Forall (fun d => pid d = me) (local_data s ++ data_queue s).
Proof.
  intros [h Ht] Hpr Hp. pose proof (inv_traced h s Ht) as HI.
  pose proof (inv_pid _ _ HI i me pc Hpr Hp) as Hpid.
  rewrite <- (inv_log _ _ HI) in Hpid.
  apply Forall_app in Hpid as [Hl Hq]. apply Forall_app in Hq as [Hq _].
  apply Forall_app. split; [|exact Hq].
  apply Forall_map in Hl. eapply Forall_impl; [exact Hl|].
  intros d Hd. cbn in Hd. now rewrite pid_to_wire in Hd.
Qed.

(** ** From the worker's clock to the buffer *)

(** X8. Whatever sample a worker step builds, one turn of the drain will
    accept it: its timestamp text parses, and what goes into the buffer has
    the step and pid as built and, as timestamp, the very instant the worker
    read from the clock. *)
Theorem built_sample_is_accepted (s : state) (i : nat) (now : datetime) (d : Sample) :
  valid now = true -> fst (work now i s) = EvCreate d ->
  timestamp d = TsStr (isoformat now) /\
  parsed d = Some (mkSample (TsDatetime now) (step d) (pid d)) /\
  (forall s1 q, data_queue s1 = d :: q ->
     drain_body s1
     = (Ok tt, with_local (local_data s1
                           ++ [mkSample (TsDatetime now) (step d) (pid d)])
                          (with_queue q s1))).
Proof.
  intros Hv He.
  assert (timestamp d = TsStr (isoformat now)) as Ht.
  { destruct (procs s !! i) as [p|] eqn:Hp.
    - rewrite (work_view now i s p Hp) in He. cbn [fst] in He.
      destruct p as [|me pc|me]; [discriminate He| |discriminate He].
      destruct pc; cbn [wstep w_proc w_queue w_counter fst] in He;
        try destruct (stop_event s); try destruct (pause_event s);
        cbn [fst] in He; try discriminate He;
        injection He as <-; reflexivity.
    - unfold work in He. rewrite Hp in He. discriminate He. }
  assert (parsed d = Some (mkSample (TsDatetime now) (step d) (pid d))) as Hp.
  { unfold parsed. now rewrite Ht, fromisoformat_isoformat. }
  split; [exact Ht|]. split; [exact Hp|].
  intros s1 q Q. rewrite (drain_body_cons s1 d q Q).
  unfold appended. now rewrite Hp.
Qed.

(** ** The buttons *)

(** X9. Clicking Pause twice gives the session back as it was; one click
    changes [pause_event] and nothing else, so that a running session shows
    the other status and waits the other interval before its rerun. *)
Theorem pause_toggle_flips (s : state) :
  (pause_toggle ≫= fun _ => pause_toggle) s = (Ok tt, s) /\
  exists s1,
    pause_toggle s = (Ok tt, s1) /\
    pause_event s1 = negb (pause_event s) /\
    s1 = with_pause (pause_event s1) s /\
    (running s = true ->
     status s1 = Status (if pause_event s then "RUNNING" else "PAUSED")
                        (length (local_data s)) /\
     rerun_wait s1 = Some (if pause_event s then 2000 else 100)%Z).
Proof.
  split.
  - rewrite (bind_ok _ _ _ _ _ (pause_toggle_eq s)), pause_toggle_eq.
    destruct s as [q st pa c l pr ru ps]. cbn. now rewrite negb_involutive.
  - eexists. split; [apply pause_toggle_eq|]. split; [reflexivity|].
    split; [reflexivity|].
    intros Hr. unfold status, rerun_wait. cbn. rewrite Hr.
    now destruct (pause_event s).
Qed.

Lemma bind_ext {A B} (m : M A) (f g : A -> M B) s :
  (forall a s1, f a s1 = g a s1) -> (m ≫= f) s = (m ≫= g) s.
Proof.
  intros H. unfold mbind, M_bind. destruct (m s) as [[a|e|] s1]; auto.
Qed.

Lemma main_no_click fuel now spawn s :
  main fuel now spawn None s = drain fuel s.
Proof.
  unfold main.
  rewrite (bind_ok get _ s s s eq_refl). cbn [st_button].
  rewrite (bind_ok (mret tt) _ s tt s eq_refl).
  rewrite (bind_ok get _ s s s eq_refl). cbn [st_button].
  rewrite (bind_ok (mret tt) _ s tt s eq_refl).
  rewrite (bind_ok get _ s s s eq_refl). cbn [st_button].
  now rewrite (bind_ok (mret tt) _ s tt s eq_refl).
Qed.

Lemma main_click fuel now spawn b s :
  main fuel now spawn (Some b) s
  = if button_disabled b s then drain fuel s
    else (handler fuel now spawn b ≫= fun _ => drain fuel) s.
Proof.
  unfold main. rewrite (bind_ok get _ s s s eq_refl).
  destruct b; cbn [st_button button_eqb andb button_disabled handler].
  - destruct (start_disabled s); cbn [negb].
    + rewrite (bind_ok (mret tt) _ s tt s eq_refl).
      rewrite (bind_ok get _ s s s eq_refl).
      rewrite (bind_ok (mret tt) _ s tt s eq_refl).
      rewrite (bind_ok get _ s s s eq_refl).
      now rewrite (bind_ok (mret tt) _ s tt s eq_refl).
    + apply bind_ext. intros [] s1.
      rewrite (bind_ok get _ s1 s1 s1 eq_refl).
      rewrite (bind_ok (mret tt) _ s1 tt s1 eq_refl).
      rewrite (bind_ok get _ s1 s1 s1 eq_refl).
      now rewrite (bind_ok (mret tt) _ s1 tt s1 eq_refl).
  - rewrite (bind_ok (mret tt) _ s tt s eq_refl).
    rewrite (bind_ok get _ s s s eq_refl).
    destruct (pause_disabled s); cbn [negb].
    + rewrite (bind_ok (mret tt) _ s tt s eq_refl).
      rewrite (bind_ok get _ s s s eq_refl).
      now rewrite (bind_ok (mret tt) _ s tt s eq_refl).
    + apply bind_ext. intros [] s1.
      rewrite (bind_ok get _ s1 s1 s1 eq_refl).
      now rewrite (bind_ok (mret tt) _ s1 tt s1 eq_refl).
  - rewrite (bind_ok (mret tt) _ s tt s eq_refl).
    rewrite (bind_ok get _ s s s eq_refl).
    rewrite (bind_ok (mret tt) _ s tt s eq_refl).
    rewrite (bind_ok get _ s s s eq_refl).
    destruct (clear_disabled s); cbn [negb].
    + now rewrite (bind_ok (mret tt) _ s tt s eq_refl).
    + reflexivity.
Qed.

Lemma drain_returns fuel s :
  length (data_queue s) <= fuel -> exists s', drain fuel s = (Ok tt, s').
Proof.
  intros Hf. destruct (running s) eqn:Hr.
  - rewrite drain_running by exact Hr.
    destruct (drain_loop_spec fuel s) as [Hd _]. rewrite (Hd Hf). eauto.
  - rewrite drain_idle by exact Hr. eauto.
Qed.

Lemma drain_never_raises fuel s e s' : drain fuel s <> (Raise e, s').
Proof.
  intros H. destruct (running s) eqn:Hr.
  - rewrite drain_running in H by exact Hr.
    destruct (drain_loop_spec fuel s) as [_ Hno]. now apply (Hno _ _ H e).
  - rewrite drain_idle in H by exact Hr. discriminate.
Qed.

(** X10. The only exception a script run lets through is the [OSError] of a
    refused [Process.start()]: it takes a click on an enabled Start button.
    The run then ends before the drain: [running] is still false, and
    buffer, queue and counter are as they were. *)
Theorem main_raises_only_on_spawn_failure
  (fuel : nat) (now : datetime) (spawn : option Z) (click : option button)
  (s : state) (e : exn) (s' : state) :
  main fuel now spawn click s = (Raise e, s') ->
  e = OSError /\ click = Some Start /\ spawn = None /\
  running s = false /\ running s' = false /\ handle_alive s' = false /\
  local_data s' = local_data s /\ data_queue s' = data_queue s /\
  counter s' = counter s.
Proof.
  intros H. destruct click as [b|].
  2: { rewrite main_no_click in H. now destruct (drain_never_raises _ _ _ _ H). }
  rewrite main_click in H.
  destruct (button_disabled b s) eqn:Hdis.
  { now destruct (drain_never_raises _ _ _ _ H). }
  unfold mbind, M_bind in H.
  destruct b; cbn [handler button_disabled] in *.
  - unfold start_disabled in Hdis.
    destruct (handle_alive s) eqn:Ha.
    + rewrite start_alive in H by exact Ha.
      now destruct (drain_never_raises _ _ _ _ H).
    + destruct spawn as [p|].
      * rewrite start_spawned in H by exact Ha.
        now destruct (drain_never_raises _ _ _ _ H).
      * rewrite start_refused in H by exact Ha. injection H as <- <-.
        cbn. repeat split; try assumption.
        unfold handle_alive, is_alive. cbn.
        now rewrite list_lookup_middle.
  - rewrite pause_toggle_eq in H.
    now destruct (drain_never_raises _ _ _ _ H).
  - destruct (clear_spec fuel now s) as [Hc _].
    destruct (clear fuel now s) as [[[]|e0|] s1] eqn:E.
    + now destruct (drain_never_raises _ _ _ _ H).
    + destruct (Hc _ _ eq_refl) as [Hno _]. now destruct (Hno e0).
    + discriminate.
Qed.

(** X11. A script run in which Clear is not clicked returns whenever its
    fuel covers the queue: apart from the waiting [join] of Clear, the only
    loop of the script is the drain, which takes one sample off the queue in
    every turn. *)
Theorem script_run_without_clear_returns
  (fuel : nat) (now : datetime) (spawn : option Z) (click : option button)
  (s : state) :
  click <> Some Clear ->
  length (data_queue s) <= fuel ->
  fst (main fuel now spawn click s) <> Timeout.
Proof.
  intros Hclick Hf.
  assert (forall s1, data_queue s1 = data_queue s ->
                     fst (drain fuel s1) <> Timeout) as Hdrain.
  { intros s1 Hq. destruct (drain_returns fuel s1) as [s2 ->];
      [rewrite Hq; lia|discriminate]. }
  destruct click as [b|]; [|rewrite main_no_click; now apply Hdrain].
  rewrite main_click. destruct (button_disabled b s); [now apply Hdrain|].
  unfold mbind, M_bind. destruct b; cbn [handler].
  - destruct (start spawn s) as [[[]|e|] s1] eqn:E.
    + apply Hdrain. now destruct (start_keeps_data spawn s _ s1 E) as (_ & _ & ->).
    + discriminate.
    + destruct (handle_alive s) eqn:Ha.
      * rewrite start_alive in E by exact Ha. discriminate.
      * destruct spawn;
          [rewrite start_spawned in E by exact Ha
          |rewrite start_refused in E by exact Ha]; discriminate.
  - rewrite pause_toggle_eq. now apply Hdrain.
  - now destruct Hclick.
Qed.

(** ** Script runs *)

(** X12. Whatever is clicked, a script run that starts in a state the
    session can reach ends in one: at most one worker process is alive, and
    [running] says whether the handle names a live process. *)
Theorem script_run_keeps_one_worker
  (fuel : nat) (now : datetime) (spawn : option Z) (click : option button)
  (s : state) (r : res unit) (s' : state) :
  reachable s -> valid now = true ->
  main fuel now spawn click s = (r, s') -> r <> Timeout ->
  reachable s' /\ live_count s' <= 1 /\ running s' = handle_alive s'.
Proof.
  intros Hr Hv H Hne.
  pose proof (preserves_main fuel now spawn click Hv s r s' Hr H Hne) as Hr'.
  split; [exact Hr'|]. destruct Hr' as [h Ht].
  pose proof (inv_traced h s' Ht) as HI. split.
  - apply at_most_one_alive. intros j k p q Hj Hk Hp Hq.
    pose proof (inv_only_handle _ _ HI j p Hj Hp) as E1.
    pose proof (inv_only_handle _ _ HI k q Hk Hq) as E2. congruence.
  - destruct (handle_alive s') eqn:Ha.
    + now destruct (inv_alive_running _ _ HI Ha).
    + destruct (running s') eqn:Hrun; [|reflexivity].
      rewrite (inv_running_alive _ _ HI Hrun) in Ha. discriminate.
Qed.

(** X13. In every state the session reaches with something in the buffer,
    the session is running, so the status line shows a step count; and, below
    2^31 samples, that count is the step number of the sample drained last. *)
Theorem status_shows_latest_step (s : state) (l : list Sample) (d : Sample) :
  reachable s -> local_data s = l ++ [d] ->
  (Z.of_nat (length (local_data s)) < 2 ^ 31)%Z ->
  status s = Status (if pause_event s then "PAUSED" else "RUNNING")
                    (length (local_data s)) /\
  step d = Z.of_nat (length (local_data s)).
Proof.
  intros [h Ht] Hl Hsmall. pose proof (inv_traced h s Ht) as HI.
  split.
  - unfold status. destruct (running s) eqn:Hr; [reflexivity|].
    assert (handle_alive s = false) as Ha.
    { destruct (handle_alive s) eqn:Ha; [|reflexivity].
      destruct (inv_alive_running _ _ HI Ha) as [Hr' _]. congruence. }
    destruct (inv_idle_fields h s HI Ha) as (_ & Hnil & _).
    rewrite Hnil in Hl. now destruct l.
  - pose proof (buffer_steps h s HI) as Hst.
    rewrite steps_upto_small in Hst by exact Hsmall.
    rewrite Hl in Hst |- *. rewrite length_app in Hst |- *.
    cbn [length] in Hst |- *. rewrite Nat.add_1_r in Hst |- *.
    rewrite map_app, seq_S, map_app in Hst. cbn [map] in Hst.
    apply app_inj_2 in Hst as [_ Hst]; [|reflexivity].
    now injection Hst as ->.
Qed.

Lemma session_after_reachable fuel hs : forall ss s,
  forallb clock_ok hs = true ->
  (forall s0, ss = Some s0 -> reachable s0) ->
  session_after fuel hs ss = Some (Some s) -> reachable s.
Proof.
  induction hs as [|hp hs IH]; intros ss s Hok Hss H.
  - injection H as ->. now apply Hss.
  - cbn [forallb] in Hok. apply andb_true_iff in Hok as [Hh Hok].
    destruct hp as [now spawn click|i now]; cbn [session_after clock_ok] in *.
    + unfold script in H.
      destruct (main fuel now spawn click (initialize_session_state ss))
        as [r s1] eqn:E.
      assert (reachable (initialize_session_state ss)) as Hi.
      { destruct ss as [s0|]; cbn; [now apply Hss|exact reachable_init]. }
      destruct r as [[]|e|]; [| |discriminate].
      * apply (IH (Some s1) s Hok); [|exact H].
        intros s0 [= <-].
        now apply (preserves_main fuel now spawn click Hh _ _ _ Hi E).
      * apply (IH (Some s1) s Hok); [|exact H].
        intros s0 [= <-].
        now apply (preserves_main fuel now spawn click Hh _ _ _ Hi E).
    + destruct ss as [s0|].
      * apply (IH (Some (snd (work now i s0))) s Hok); [|exact H].
        intros s1 [= <-]. eapply reachable_step; [now apply Hss|].
        now apply step_work.
      * apply (IH None s Hok); [|exact H]. intros s0 [=].
Qed.

(** X14. A session that starts uninitialized and goes through any list of
    script runs and worker steps is, once initialized, in a state the system
    reaches by its steps: the first run initializes the session, later runs
    keep what earlier ones left, and so at any point at most one worker
    process is alive and a session that is not running is empty. *)
Theorem sessions_keep_invariant (fuel : nat) (hs : list happening) (s : state) :
  forallb clock_ok hs = true ->
  session_after fuel hs None = Some (Some s) ->
  reachable s /\ live_count s <= 1 /\
  (running s = false -> local_data s = [] /\ data_queue s = [] /\ counter s = 0%Z).
Proof.
  intros Hok H.
  assert (reachable s) as Hr
    by (apply (session_after_reachable fuel hs None s Hok); [intros s0 [=]|exact H]).
  split; [exact Hr|]. destruct Hr as [h Ht].
  pose proof (inv_traced h s Ht) as HI. split.
  - apply at_most_one_alive. intros j k p q Hj Hk Hp Hq.
    pose proof (inv_only_handle _ _ HI j p Hj Hp) as E1.
    pose proof (inv_only_handle _ _ HI k q Hk Hq) as E2. congruence.
  - intros Hrun.
    assert (handle_alive s = false) as Ha.
    { destruct (handle_alive s) eqn:Ha; [|reflexivity].
      destruct (inv_alive_running _ _ HI Ha) as [Hr' _]. congruence. }
    destruct (inv_idle_fields h s HI Ha) as (_ & Hl & Hq & Hc & _).
    now repeat split.
Qed.


(** X16. A drain touches nothing but the buffer and the queue, only adds to
    the buffer, and leaves a running session with an empty queue; a second
    drain right after it changes nothing. *)
Theorem drain_twice (fuel : nat) (s : state) :
  length (data_queue s) <= fuel ->
  exists s',
    drain fuel s = (Ok tt, s') /\ drain fuel s' = (Ok tt, s') /\
    (running s = true -> data_queue s' = []) /\
    (exists new, local_data s' = local_data s ++ new) /\
    counter s' = counter s /\ stop_event s' = stop_event s /\
    pause_event s' = pause_event s /\ process s' = process s /\
    running s' = running s /\ procs s' = procs s.
Proof.
  intros Hf. destruct (running s) eqn:Hr.
  - rewrite drain_running by exact Hr.
    destruct (drain_loop_spec fuel s) as [Hd _]. rewrite (Hd Hf).
    eexists. split; [reflexivity|]. split.
    + rewrite drain_running by exact Hr.
      destruct fuel; cbn [while queue_empty data_queue with_local with_queue negb];
        reflexivity.
    + split; [reflexivity|]. split; [eexists; reflexivity|].
      now repeat split.
  - rewrite drain_idle by exact Hr. exists s.
    split; [reflexivity|]. split; [now apply drain_idle|].
    split; [discriminate|]. split; [exists []; now rewrite app_nil_r|].
    now repeat split.
Qed.

(** X17. The script of a running session waits, before its rerun, as long
    as the worker sleeps in one turn of its loop under the same events:
    100 ms when paused, 2000 ms when not. *)
Theorem rerun_wait_matches_worker
  (s : state) (i : nat) (me : Z) (now : datetime) :
  procs s !! i = Some (Alive me AtStop) ->
  stop_event s = false -> running s = true ->
  rerun_wait s
  = Some (slept (fst (work_n (if pause_event s then 3 else 6) now i s))).
Proof.
  intros Hp Hstop Hr. unfold rerun_wait. rewrite Hr.
  destruct (pause_event s) eqn:Hpa;
    rewrite (work_n_view _ now i s _ Hp), Hstop, Hpa; reflexivity.
Qed.

(** ** The further properties at concrete inputs *)


Lemma worker_runs_until_stopped_witness :
  exists pc', procs (snd (work_n 10 noon 0 started)) !! 0 = Some (Alive 100 pc').
Proof.
  exact (worker_runs_until_stopped started 0 100 AtStop noon 10 eq_refl eq_refl).
Defined.

Lemma running_is_accurate_witness : running started = handle_alive started.
Proof.
  refine (proj1 (running_is_accurate started _)).
  exists []. apply (traced_step [] init (LStart (Some 100%Z)) started).
  - exact traced_init.
  - apply (step_start (Some 100%Z) init (Ok tt)). reflexivity.
Defined.

Lemma stopped_session_is_clean_witness :
  local_data init = [] /\ data_queue init = [] /\ counter init = 0%Z.
Proof.
  destruct (stopped_session_is_clean init (ex_intro _ [] traced_init) eq_refl)
    as (H1 & H2 & H3 & _).
  repeat split; assumption.
Defined.

Lemma counter_counts_samples_witness :
  (Z.of_nat (length (local_data one_queued)) <= counter one_queued)%Z.
Proof.
  refine (proj2 (proj2 (counter_counts_samples one_queued _)) _).
  - exact reachable_one_queued.
  - cbn. lia.
Defined.

Lemma samples_carry_worker_pid_witness :
  Forall (fun d => pid d = 100%Z) (local_data one_queued ++ data_queue one_queued).
Proof.
  exact (samples_carry_worker_pid one_queued 0 100 AtSleepWork
           reachable_one_queued eq_refl eq_refl).
Defined.

Lemma built_sample_is_accepted_witness :
  parsed (sample_on_wire noon 1 100) = Some (sample_in_buffer noon 1 100).
Proof.
  exact (proj1 (proj2 (built_sample_is_accepted
                         (snd (work_n 3 noon 0 started)) 0 noon
                         (sample_on_wire noon 1 100) eq_refl eq_refl))).
Defined.

Lemma main_raises_only_on_spawn_failure_witness :
  running (snd (main 0 noon None (Some Start) init)) = false.
Proof.
  exact (proj1 (proj2 (proj2 (proj2 (proj2
           (main_raises_only_on_spawn_failure 0 noon None (Some Start) init
              OSError (snd (main 0 noon None (Some Start) init)) eq_refl)))))).
Defined.

Lemma script_run_without_clear_returns_witness :
  fst (main 1 noon (Some 100%Z) (Some Pause) one_queued) <> Timeout.
Proof.
  apply (script_run_without_clear_returns 1 noon (Some 100%Z) (Some Pause)
           one_queued).
  - discriminate.
  - cbn. lia.
Defined.

Lemma script_run_keeps_one_worker_witness :
  live_count (snd (main 3 noon (Some 100%Z) (Some Start) init)) <= 1.
Proof.
  refine (proj1 (proj2 (script_run_keeps_one_worker 3 noon (Some 100%Z)
                          (Some Start) init (Ok tt) _ _ eq_refl eq_refl _))).
  - exists []. exact traced_init.
  - discriminate.
Defined.

Lemma status_shows_latest_step_witness :
  status (after_emissions 2) = Status "RUNNING" 2.
Proof.
  refine (proj1 (status_shows_latest_step (after_emissions 2)
                   [sample_in_buffer noon 1 100] (sample_in_buffer noon 2 100)
                   _ eq_refl _)).
  - apply reachable_after_emissions.
  - cbn. lia.
Defined.

Lemma sessions_keep_invariant_witness :
  live_count (snd (work noon 0 started)) <= 1.
Proof.
  refine (proj1 (proj2 (sessions_keep_invariant 3
                          [Run noon (Some 100%Z) (Some Start); Step 0 noon]
                          _ eq_refl eq_refl))).
Defined.


Lemma drain_twice_witness :
  exists s', drain 1 one_queued = (Ok tt, s') /\ drain 1 s' = (Ok tt, s').
Proof.
  destruct (drain_twice 1 one_queued) as (s' & H1 & H2 & _).
  - cbn. lia.
  - exists s'. split; assumption.
Defined.

Lemma rerun_wait_matches_worker_witness : rerun_wait started = Some 2000%Z.
Proof.
  exact (rerun_wait_matches_worker started 0 100 noon eq_refl eq_refl eq_refl).
Defined.
